(** * webots_ros2: e-puck driver numerics

    A shallow embedding of the numeric core of
    [webots_ros2_core/math_utils.py] and [webots_ros2_epuck2/driver.py]:
    the Euler-angle to quaternion conversion, the calibration-table lookup,
    the odometry integrator and the assembly of the panoramic laser scan.

    Number model.  Python [float]s (and the [int]s mixed into the tables) are
    read as exact real numbers [R]: every [+], [-], [*], [/], [sin], [cos] is
    the real one, without rounding, and comparisons are the real order.  What
    Python raises is kept: a division whose divisor is zero raises
    [ZeroDivisionError], an index outside a list raises [IndexError]. *)

From Stdlib Require Import Reals Lra List ZArith Lia Bool String Sorted.
Import ListNotations.

Open Scope R_scope.

(** ** Exceptions *)

Inductive exn : Set :=
| IndexError
| ZeroDivisionError
| UnboundLocalError.

Inductive result (A : Type) : Type :=
| Ok (a : A)
| Raise (e : exn).

Arguments Ok {A} a.
Arguments Raise {A} e.

Definition bind {A B : Type} (m : result A) (k : A -> result B) : result B :=
  match m with
  | Ok a => k a
  | Raise e => Raise e
  end.

Notation "x <- m ;; k" := (bind m (fun x => k))
  (at level 61, m at next level, right associativity).

(** ** Python primitives *)

(** Comparisons of floats, as booleans. *)
Definition Rltb (a b : R) : bool := if Rlt_dec a b then true else false.
Definition Rleb (a b : R) : bool := if Rle_dec a b then true else false.
Definition Rgtb (a b : R) : bool := if Rgt_dec a b then true else false.
Definition Rgeb (a b : R) : bool := if Rge_dec a b then true else false.

(** [a / b]: true division raises on a zero divisor. *)
Definition truediv (a b : R) : result R :=
  if Req_dec_T b 0 then Raise ZeroDivisionError else Ok (a / b).

(** [len(l)] as a Python integer. *)
Definition len {A : Type} (l : list A) : Z := Z.of_nat (List.length l).

(** [l[i]]: a negative index counts from the end; outside
    [-len(l) .. len(l) - 1] it raises [IndexError]. *)
Definition getitem {A : Type} (l : list A) (i : Z) : result A :=
  let j := if (i <? 0)%Z then (len l + i)%Z else i in
  if ((0 <=? j)%Z && (j <? len l)%Z)%bool then
    match nth_error l (Z.to_nat j) with
    | Some a => Ok a
    | None => Raise IndexError
    end
  else Raise IndexError.

(** The list [l] with position [n] replaced by [a]. *)
Fixpoint update {A : Type} (l : list A) (n : nat) (a : A) : list A :=
  match l, n with
  | [], _ => []
  | _ :: t, O => a :: t
  | h :: t, S m => h :: update t m a
  end.

(** [l[i] = a]: same index rule as [getitem]. *)
Definition setitem {A : Type} (l : list A) (i : Z) (a : A) : result (list A) :=
  let j := if (i <? 0)%Z then (len l + i)%Z else i in
  if ((0 <=? j)%Z && (j <? len l)%Z)%bool then Ok (update l (Z.to_nat j) a)
  else Raise IndexError.

(** [range(n)]: [0, 1, ..., n - 1], empty when [n <= 0]. *)
Definition range (n : Z) : list Z := map Z.of_nat (seq 0 (Z.to_nat n)).

(** [geometry_msgs.msg.Quaternion]. *)
Module Quaternion.
Record t : Set := mk { x : R; y : R; z : R; w : R }.
Definition norm2 (q : t) : R := x q * x q + y q * y q + z q * z q + w q * w q.
End Quaternion.

(** A table row [[physical, raw]]: [row[0]] is the physical value and
    [row[1]] the raw one. *)
Definition row : Set := (R * R)%type.
Definition physical (r : row) : R := fst r.
Definition raw (r : row) : R := snd r.

(** ** webots_ros2_core/math_utils.py *)

Module MathUtils.

Definition euler_to_quaternion (roll pitch yaw : R) : Quaternion.t :=
  Quaternion.mk
    (sin (roll/2) * cos (pitch/2) * cos (yaw/2) -
     cos (roll/2) * sin (pitch/2) * sin (yaw/2))
    (cos (roll/2) * sin (pitch/2) * cos (yaw/2) +
     sin (roll/2) * cos (pitch/2) * sin (yaw/2))
    (cos (roll/2) * cos (pitch/2) * sin (yaw/2) -
     sin (roll/2) * sin (pitch/2) * cos (yaw/2))
    (cos (roll/2) * cos (pitch/2) * cos (yaw/2) +
     sin (roll/2) * sin (pitch/2) * sin (yaw/2)).

Definition interpolate_function (value start_x start_y end_x end_y : R)
  : result R :=
  slope <- truediv (end_y - start_y) (end_x - start_x) ;;
  Ok (slope * (value - start_x) + start_y).

(** The [for] loop of [interpolate_table] over the indices still to visit:
    [Ok (Some y)] is the [return] inside the loop, [Ok None] falls through
    to the code after it.  Both rows are read before the test; Python's
    [and]/[or] may skip the second read, which cannot raise for an index of
    [range(len(table) - 1)]. *)
Fixpoint interpolate_table_loop (value : R) (table : list row) (idxs : list Z)
  : result (option R) :=
  match idxs with
  | [] => Ok None
  | i :: rest =>
      ti <- getitem table i ;;
      ti1 <- getitem table (i + 1)%Z ;;
      if ((Rltb value (raw ti) && Rgeb value (raw ti1)) ||
          (Rgtb value (raw ti) && Rleb value (raw ti1)))%bool
      then
        y <- interpolate_function value
               (raw ti) (physical ti) (raw ti1) (physical ti1) ;;
        Ok (Some y)
      else interpolate_table_loop value table rest
  end.

Definition interpolate_table (value : R) (table : list row) : result R :=
  found <- interpolate_table_loop value table (range (len table - 1)%Z) ;;
  match found with
  | Some y => Ok y
  | None =>
      (* Edge case, search outside of two points. *)
      t0 <- getitem table 0%Z ;;
      if Rgtb value (raw t0) then
        (* Interpolate as first *)
        t1 <- getitem table 1%Z ;;
        interpolate_function value
          (raw t0) (physical t0) (raw t1) (physical t1)
      else
        (* Interpolate as last *)
        a <- getitem table (len table - 2)%Z ;;
        b <- getitem table (len table - 1)%Z ;;
        interpolate_function value
          (raw a) (physical a) (raw b) (physical b)
  end.

End MathUtils.

(** ** webots_ros2_epuck2/driver.py *)

Module Driver.

Definition OUT_OF_RANGE : R := 0.0.
Definition NB_INFRARED_SENSORS : nat := 8.
Definition SENSOR_DIST_FROM_CENTER : R := 0.035.

Definition TOF_TABLE : list row :=
  [ (2.00, 2000.0);
    (1.70, 1780.5);
    (1.00, 1052.0);
    (0.50, 531.9);
    (0.20, 218.9);
    (0.10, 111.0);
    (0.05, 58.5);
    (0.00, 19.8) ].

Definition DISTANCE_TABLE : list row :=
  [ (0, 4095);
    (0.005, 2133.33);
    (0.01, 1465.73);
    (0.015, 601.46);
    (0.02, 383.84);
    (0.03, 234.93);
    (0.04, 158.03);
    (0.05, 120);
    (0.06, 104.09) ].

Definition euler_to_quaternion (roll pitch yaw : R) : Quaternion.t :=
  Quaternion.mk
    (sin (roll/2) * cos (pitch/2) * cos (yaw/2) -
     cos (roll/2) * sin (pitch/2) * sin (yaw/2))
    (cos (roll/2) * sin (pitch/2) * cos (yaw/2) +
     sin (roll/2) * cos (pitch/2) * sin (yaw/2))
    (cos (roll/2) * cos (pitch/2) * sin (yaw/2) -
     sin (roll/2) * sin (pitch/2) * cos (yaw/2))
    (cos (roll/2) * cos (pitch/2) * cos (yaw/2) +
     sin (roll/2) * sin (pitch/2) * sin (yaw/2)).

Definition interpolate_function (value startX startY endX endY : R)
  : result R :=
  slope <- truediv (endY - startY) (endX - startX) ;;
  Ok (slope * (value - startX) + startY).

Fixpoint interpolate_table_loop (value : R) (table : list row) (idxs : list Z)
  : result (option R) :=
  match idxs with
  | [] => Ok None
  | i :: rest =>
      ti <- getitem table i ;;
      ti1 <- getitem table (i + 1)%Z ;;
      if ((Rltb value (raw ti) && Rgeb value (raw ti1)) ||
          (Rgtb value (raw ti) && Rleb value (raw ti1)))%bool
      then
        y <- interpolate_function value
               (raw ti) (physical ti) (raw ti1) (physical ti1) ;;
        Ok (Some y)
      else interpolate_table_loop value table rest
  end.

Definition interpolate_table (value : R) (table : list row) : result R :=
  found <- interpolate_table_loop value table (range (len table - 1)%Z) ;;
  match found with
  | Some y => Ok y
  | None =>
      t0 <- getitem table 0%Z ;;
      if Rgtb value (raw t0) then
        t1 <- getitem table 1%Z ;;
        interpolate_function value
          (raw t0) (physical t0) (raw t1) (physical t1)
      else
        a <- getitem table (len table - 2)%Z ;;
        b <- getitem table (len table - 1)%Z ;;
        interpolate_function value
          (raw a) (physical a) (raw b) (physical b)
  end.

(** The fields of [EPuckDriver] that the odometry reads and writes.
    [period] is the value of the [period] parameter, in milliseconds. *)
Record EPuckDriver : Set := mkEPuckDriver {
  period : R;
  wheel_radius : R;
  wheel_distance : R;
  prev_left_wheel_ticks : R;
  prev_right_wheel_ticks : R;
  prev_position : R * R;
  prev_angle : R
}.

Definition reset_odometry (self : EPuckDriver) : EPuckDriver :=
  {| period := period self;
     wheel_radius := wheel_radius self;
     wheel_distance := wheel_distance self;
     prev_left_wheel_ticks := 0;
     prev_right_wheel_ticks := 0;
     prev_position := (0.0, 0.0);
     prev_angle := 0.0 |}.

Definition set_wheel_radius (self : EPuckDriver) (v : R) : EPuckDriver :=
  {| period := period self;
     wheel_radius := v;
     wheel_distance := wheel_distance self;
     prev_left_wheel_ticks := prev_left_wheel_ticks self;
     prev_right_wheel_ticks := prev_right_wheel_ticks self;
     prev_position := prev_position self;
     prev_angle := prev_angle self |}.

Definition set_wheel_distance (self : EPuckDriver) (v : R) : EPuckDriver :=
  {| period := period self;
     wheel_radius := wheel_radius self;
     wheel_distance := v;
     prev_left_wheel_ticks := prev_left_wheel_ticks self;
     prev_right_wheel_ticks := prev_right_wheel_ticks self;
     prev_position := prev_position self;
     prev_angle := prev_angle self |}.

(** An [rclpy.parameter.Parameter]: its name and its (numeric) value. *)
Record Param : Set := mkParam { name : string; value : R }.

Record SetParametersResult : Set := mkResult { successful : bool }.

(** The body of the [for param in params] loop. *)
Definition on_param_changed_body (self : EPuckDriver) (param : Param)
  : EPuckDriver :=
  if String.eqb (name param) "wheel_radius" then
    set_wheel_radius (reset_odometry self) (value param)
  else if String.eqb (name param) "wheel_distance" then
    set_wheel_distance (reset_odometry self) (value param)
  else self.

Definition on_param_changed (self : EPuckDriver) (params : list Param)
  : EPuckDriver * SetParametersResult :=
  (fold_left on_param_changed_body params self, mkResult true).

(** What [odometry_callback] publishes: the fields it sets in the
    [nav_msgs/Odometry] message and in the [TransformStamped]. *)
Record Odometry : Set := mkOdometry {
  twist_linear_x : R;
  twist_angular_z : R;
  pose_position_x : R;
  pose_position_y : R;
  pose_orientation : Quaternion.t
}.

Record TransformStamped : Set := mkTransformStamped {
  translation_x : R;
  translation_y : R;
  translation_z : R;
  rotation : Quaternion.t
}.

(** [odometry_callback]: [left_wheel_ticks] and [right_wheel_ticks] are
    what the two position sensors return from [getValue()].  The result is
    the driver after the update and the two published messages (the time
    stamp and the frame names are left out). *)
Definition odometry_callback
  (self : EPuckDriver) (left_wheel_ticks right_wheel_ticks : R)
  : result (EPuckDriver * Odometry * TransformStamped) :=
  let encoder_period_s := period self / 1000.0 in
  (* Calculate velocities *)
  v_left_rad <-
    truediv (left_wheel_ticks - prev_left_wheel_ticks self) encoder_period_s ;;
  v_right_rad <-
    truediv (right_wheel_ticks - prev_right_wheel_ticks self) encoder_period_s ;;
  let v_left := v_left_rad * wheel_radius self in
  let v_right := v_right_rad * wheel_radius self in
  let v := (v_left + v_right) / 2 in
  omega <- truediv (v_right - v_left) (wheel_distance self) ;;
  (* Calculate position & angle: Fourth order Runge - Kutta *)
  let k00 := v * cos (prev_angle self) in
  let k01 := v * sin (prev_angle self) in
  let k02 := omega in
  let k10 := v * cos (prev_angle self + encoder_period_s * k02 / 2) in
  let k11 := v * sin (prev_angle self + encoder_period_s * k02 / 2) in
  let k12 := omega in
  let k20 := v * cos (prev_angle self + encoder_period_s * k12 / 2) in
  let k21 := v * sin (prev_angle self + encoder_period_s * k12 / 2) in
  let k22 := omega in
  let k30 := v * cos (prev_angle self + encoder_period_s * k22 / 2) in
  let k31 := v * sin (prev_angle self + encoder_period_s * k22 / 2) in
  let k32 := omega in
  let position :=
    (fst (prev_position self) + (encoder_period_s / 6) *
       (k00 + 2 * (k10 + k20) + k30),
     snd (prev_position self) + (encoder_period_s / 6) *
       (k01 + 2 * (k11 + k21) + k31)) in
  let angle :=
    prev_angle self + (encoder_period_s / 6) * (k02 + 2 * (k12 + k22) + k32) in
  (* Update variables *)
  let self' :=
    {| period := period self;
       wheel_radius := wheel_radius self;
       wheel_distance := wheel_distance self;
       prev_left_wheel_ticks := left_wheel_ticks;
       prev_right_wheel_ticks := right_wheel_ticks;
       prev_position := position;
       prev_angle := angle |} in
  (* Pack & publish odometry *)
  let msg :=
    {| twist_linear_x := v;
       twist_angular_z := omega;
       pose_position_x := fst position;
       pose_position_y := snd position;
       pose_orientation := euler_to_quaternion 0 0 angle |} in
  (* Pack & publish transforms *)
  let tf :=
    {| translation_x := fst position;
       translation_y := snd position;
       translation_z := 0.0;
       rotation := euler_to_quaternion 0 0 angle |} in
  Ok (self', msg, tf).

(** The fields of the [sensor_msgs/LaserScan] that [distance_callback]
    sets (angles in radians). *)
Record LaserScan : Set := mkLaserScan {
  angle_min : R;
  angle_max : R;
  angle_increment : R;
  range_min : R;
  range_max : R;
  ranges : list R
}.

(** [enumerate(l)]. *)
Definition enumerate {A : Type} (l : list A) : list (Z * A) :=
  combine (range (len l)) l.

(** The first loop of [distance_callback], over what is left of
    [enumerate(self.sensors)]; a sensor is given by the raw value its
    [getValue()] returns. *)
Fixpoint calculate_distances (items : list (Z * R)) (dists : list R)
  : result (list R) :=
  match items with
  | [] => Ok dists
  | (i, raw_value) :: rest =>
      d <- interpolate_table raw_value DISTANCE_TABLE ;;
      dists' <- setitem dists i d ;;
      calculate_distances rest dists'
  end.

(** The list literal assigned to [msg.ranges], with the constant
    [SENSOR_DIST_FROM_CENTER] that the source adds taken as [offset]. *)
Definition scan_ranges (offset : R) (dists : list R) (dist_tof : R)
  : result (list R) :=
  d3 <- getitem dists 3%Z ;;
  d2 <- getitem dists 2%Z ;;
  d1 <- getitem dists 1%Z ;;
  d0 <- getitem dists 0%Z ;;
  d7 <- getitem dists 7%Z ;;
  d6 <- getitem dists 6%Z ;;
  d5 <- getitem dists 5%Z ;;
  d4 <- getitem dists 4%Z ;;
  Ok [ d3 + offset;        (* -150 *)
       OUT_OF_RANGE;       (* -135 *)
       OUT_OF_RANGE;       (* -120 *)
       OUT_OF_RANGE;       (* -105 *)
       d2 + offset;        (* -90 *)
       OUT_OF_RANGE;       (* -75 *)
       OUT_OF_RANGE;       (* -60 *)
       d1 + offset;        (* -45 *)
       OUT_OF_RANGE;       (* -30 *)
       d0 + offset;        (* -15 *)
       dist_tof + offset;  (* 0 *)
       d7 + offset;        (* 15 *)
       OUT_OF_RANGE;       (* 30 *)
       d6 + offset;        (* 45 *)
       OUT_OF_RANGE;       (* 60 *)
       OUT_OF_RANGE;       (* 75 *)
       d5 + offset;        (* 90 *)
       OUT_OF_RANGE;       (* 105 *)
       OUT_OF_RANGE;       (* 120 *)
       OUT_OF_RANGE;       (* 135 *)
       d4 + offset         (* 150 *)
     ].

(** [distance_callback]: [sensors] lists the raw values of
    [self.sensors] in the order of the dictionary ([ps0] first).  After the
    first loop [key] is the last key, and it is unbound when the dictionary
    is empty.  The [Range] message published per sensor reads [dists] and
    changes nothing; it is left out. *)
Definition distance_callback (sensors : list R) : result LaserScan :=
  let dists := repeat OUT_OF_RANGE NB_INFRARED_SENSORS in
  (* Calculate distances *)
  dists <- calculate_distances (enumerate sensors) dists ;;
  dist_tof <-
    match List.last (map Some sensors) None with
    | Some key_value => interpolate_table key_value TOF_TABLE
    | None => Raise UnboundLocalError
    end ;;
  rs <- scan_ranges SENSOR_DIST_FROM_CENTER dists dist_tof ;;
  Ok {| angle_min := - 150 * PI / 180;
        angle_max := 150 * PI / 180;
        angle_increment := 15 * PI / 180;
        range_min := 0.005 + SENSOR_DIST_FROM_CENTER;
        range_max := 1.0 + SENSOR_DIST_FROM_CENTER;
        ranges := rs |}.

(** The fields of the [geometry_msgs/Twist] that [cmd_vel_callback]
    reads. *)
Record Twist : Set := mkTwist { linear_x : R; angular_z : R }.

(** [cmd_vel_callback]: the result is the pair of velocities passed to
    [left_motor.setVelocity] and [right_motor.setVelocity]; both are computed
    before either motor is set. *)
Definition cmd_vel_callback (self : EPuckDriver) (twist : Twist)
  : result (R * R) :=
  left_velocity <-
    truediv (2.0 * linear_x twist - angular_z twist * wheel_distance self)
            (2.0 * wheel_radius self) ;;
  right_velocity <-
    truediv (2.0 * linear_x twist + angular_z twist * wheel_distance self)
            (2.0 * wheel_radius self) ;;
  Ok (left_velocity, right_velocity).

(** What the simulator delivers to one [step_callback]: the values of the
    two wheel sensors and of the sensors [ps0] .. [ps7]. *)
Record Sample : Set := mkSample {
  left_wheel_sensor : R;
  right_wheel_sensor : R;
  sensors : list R
}.

(** [step_callback]: the odometry, then the distances.  The result is the
    driver after the step and what the step published. *)
Definition step_callback (self : EPuckDriver) (sample : Sample)
  : result (EPuckDriver * (Odometry * TransformStamped * LaserScan)) :=
  odo <- odometry_callback self
           (left_wheel_sensor sample) (right_wheel_sensor sample) ;;
  scan <- distance_callback (sensors sample) ;;
  Ok (fst (fst odo), (snd (fst odo), snd odo, scan)).

(** [rclpy.spin] on the timer of [step_callback]: one call per sample, until
    a call raises. *)
Fixpoint spin (self : EPuckDriver) (samples : list Sample)
  : result EPuckDriver :=
  match samples with
  | [] => Ok self
  | sample :: rest =>
      r <- step_callback self sample ;;
      spin (fst r) rest
  end.

End Driver.

(** * Vocabulary of the statements *)

(** The bracket test of [interpolate_table] on two consecutive rows. *)
Definition in_bracket (value : R) (a b : row) : bool :=
  ((Rltb value (raw a) && Rgeb value (raw b)) ||
   (Rgtb value (raw a) && Rleb value (raw b)))%bool.

(** Tables sorted by strictly descending raw value. *)
Definition descending (table : list row) : Prop :=
  Sorted (fun a b : row => raw b < raw a) table.

(** The value at [value] of the line through the rows [a] and [b], as
    [interpolate_function] computes it. *)
Definition line (a b : row) (value : R) : R :=
  (physical b - physical a) / (raw b - raw a) * (value - raw a) + physical a.

(** Pose and encoder state are those of a fresh integrator. *)
Definition odometry_is_zero (self : Driver.EPuckDriver) : Prop :=
  Driver.prev_left_wheel_ticks self = 0 /\
  Driver.prev_right_wheel_ticks self = 0 /\
  Driver.prev_position self = (0, 0) /\
  Driver.prev_angle self = 0.

(** [param] is one of the two geometry parameters. *)
Definition is_geometry_param (param : Driver.Param) : Prop :=
  Driver.name param = "wheel_radius"%string \/
  Driver.name param = "wheel_distance"%string.

(** The encoder period in seconds, as [odometry_callback] computes it. *)
Definition encoder_period_s (self : Driver.EPuckDriver) : R :=
  Driver.period self / 1000.0.

(** The pose after one step in the words of the specification: a
    Runge-Kutta step whose stages k2 and k3 use the angle
    [theta0 + dt * omega / 2] and whose stage k4 uses [theta0 + dt * omega]. *)
Definition spec_rk4_pose (x0 y0 theta0 v omega dt : R) : R * R * R :=
  let k1 := (v * cos theta0, v * sin theta0, omega) in
  let k2 := (v * cos (theta0 + dt * omega / 2),
             v * sin (theta0 + dt * omega / 2), omega) in
  let k3 := (v * cos (theta0 + dt * omega / 2),
             v * sin (theta0 + dt * omega / 2), omega) in
  let k4 := (v * cos (theta0 + dt * omega),
             v * sin (theta0 + dt * omega), omega) in
  let sum (c : R * R * R -> R) := c k1 + 2 * c k2 + 2 * c k3 + c k4 in
  (x0 + dt / 6 * sum (fun k => fst (fst k)),
   y0 + dt / 6 * sum (fun k => snd (fst k)),
   theta0 + dt / 6 * sum (fun k => snd k)).

(** The calibrated value of a raw reading, for a table on which the lookup
    returns. *)
Definition calibrated (table : list row) (value : R) : R :=
  match Driver.interpolate_table value table with
  | Ok y => y
  | Raise _ => 0
  end.

(** The bin of the scan that each of [ps0] .. [ps7] feeds, and the bin of
    the time-of-flight sensor. *)
Definition sensor_bins : list nat := [9; 7; 4; 0; 20; 16; 13; 11]%nat.
Definition tof_bin : nat := 10.

(** The layout of the scan in the words of the specification: 21 bins, the
    eight sensor bins hold [values[i] + s], and every other bin holds the
    sentinel zero. *)
Definition spec_scan_layout (rs values : list R) (s : R) : Prop :=
  List.length rs = 21%nat /\
  (forall i, (i < 8)%nat ->
     nth (nth i sensor_bins 0%nat) rs 0 = nth i values 0 + s) /\
  (forall j, (j < 21)%nat -> ~ In j sensor_bins -> nth j rs 0 = 0).

(** Tables sorted by strictly ascending raw value. *)
Definition ascending (table : list row) : Prop :=
  Sorted (fun a b : row => raw a < raw b) table.

(** Tables whose physical column does not decrease from one row to the
    next. *)
Definition physical_ascending (table : list row) : Prop :=
  Sorted (fun a b : row => physical a <= physical b) table.

(** No parameter of the list is named [n]. *)
Definition not_named (n : string) (params : list Driver.Param) : Prop :=
  Forall (fun param => Driver.name param <> n) params.

(** Every sample carries the readings of eight distance sensors. *)
Definition eight_sensors (samples : list Driver.Sample) : Prop :=
  Forall (fun sample => List.length (Driver.sensors sample) = 8%nat) samples.

(** The heading minus what the encoders account for: the quantity
    [theta - R / L * (right - left)] of a driver. *)
Definition heading_offset (self : Driver.EPuckDriver) : R :=
  Driver.prev_angle self
  - Driver.wheel_radius self / Driver.wheel_distance self
    * (Driver.prev_right_wheel_ticks self - Driver.prev_left_wheel_ticks self).

(** The quaternion with every component negated. *)
Definition qopp (q : Quaternion.t) : Quaternion.t :=
  Quaternion.mk (- Quaternion.x q) (- Quaternion.y q)
                (- Quaternion.z q) (- Quaternion.w q).

(** * Properties *)

(** ** Comparisons, indexing and the exception monad *)

Lemma Rltb_iff (a b : R) : Rltb a b = true <-> a < b.
Proof. unfold Rltb; destruct (Rlt_dec a b); split; intros; (congruence || lra). Qed.

Lemma Rleb_iff (a b : R) : Rleb a b = true <-> a <= b.
Proof. unfold Rleb; destruct (Rle_dec a b); split; intros; (congruence || lra). Qed.

Lemma Rgtb_iff (a b : R) : Rgtb a b = true <-> a > b.
Proof. unfold Rgtb; destruct (Rgt_dec a b); split; intros; (congruence || lra). Qed.

Lemma Rgeb_iff (a b : R) : Rgeb a b = true <-> a >= b.
Proof. unfold Rgeb; destruct (Rge_dec a b); split; intros; (congruence || lra). Qed.

Lemma truediv_ok (a b : R) : b <> 0 -> truediv a b = Ok (a / b).
Proof. intros Hb; unfold truediv; destruct (Req_dec_T b 0); congruence. Qed.

Lemma getitem_nth {A : Type} (l : list A) (i : nat) (a : A) :
  nth_error l i = Some a -> getitem l (Z.of_nat i) = Ok a.
Proof.
  intros H.
  assert (Hlt : (i < List.length l)%nat) by (apply nth_error_Some; congruence).
  unfold getitem, len.
  destruct (Z.ltb_spec (Z.of_nat i) 0); [lia|].
  destruct (Z.leb_spec 0 (Z.of_nat i)); [|lia].
  destruct (Z.ltb_spec (Z.of_nat i) (Z.of_nat (List.length l))); [|lia].
  simpl. rewrite Nat2Z.id, H. reflexivity.
Qed.

Lemma in_bracket_iff (value : R) (a b : row) :
  in_bracket value a b = true <->
  (value < raw a /\ value >= raw b) \/ (value > raw a /\ value <= raw b).
Proof.
  unfold in_bracket.
  rewrite orb_true_iff, !andb_true_iff, Rltb_iff, Rgeb_iff, Rgtb_iff, Rleb_iff.
  tauto.
Qed.

Lemma in_bracket_distinct (value : R) (a b : row) :
  in_bracket value a b = true -> raw b - raw a <> 0.
Proof. rewrite in_bracket_iff; lra. Qed.

Lemma descending_strong (table : list row) :
  descending table -> StronglySorted (fun a b : row => raw b < raw a) table.
Proof.
  apply Sorted_StronglySorted. intros a b c Hab Hbc. lra.
Qed.

Lemma descending_nth (table : list row) :
  descending table ->
  forall (i j : nat) (a b : row),
    (i < j)%nat ->
    nth_error table i = Some a -> nth_error table j = Some b ->
    raw b < raw a.
Proof.
  intros H. apply descending_strong in H.
  induction H as [|h t Ht IH Hall]; intros i j a b Hij Ha Hb.
  - destruct i; discriminate.
  - destruct j as [|j]; [lia|].
    destruct i as [|i]; simpl in Ha, Hb.
    + injection Ha as <-.
      rewrite Forall_forall in Hall. apply Hall.
      eapply nth_error_In; eassumption.
    + apply (IH i j); (lia || assumption).
Qed.

(** ** The table scan of [interpolate_table] *)

Lemma loop_miss (value : R) (table : list row) (i : nat) (a b : row)
  (rest : list Z) :
  nth_error table i = Some a -> nth_error table (S i) = Some b ->
  in_bracket value a b = false ->
  MathUtils.interpolate_table_loop value table (Z.of_nat i :: rest) =
  MathUtils.interpolate_table_loop value table rest.
Proof.
  intros Ha Hb Hm. simpl.
  rewrite (getitem_nth _ _ _ Ha). simpl.
  replace (Z.of_nat i + 1)%Z with (Z.of_nat (S i)) by lia.
  rewrite (getitem_nth _ _ _ Hb). simpl.
  unfold in_bracket in Hm. rewrite Hm. reflexivity.
Qed.

Lemma loop_hit (value : R) (table : list row) (i : nat) (a b : row)
  (rest : list Z) :
  nth_error table i = Some a -> nth_error table (S i) = Some b ->
  in_bracket value a b = true ->
  MathUtils.interpolate_table_loop value table (Z.of_nat i :: rest) =
  Ok (Some ((physical b - physical a) / (raw b - raw a) * (value - raw a)
            + physical a)).
Proof.
  intros Ha Hb Hm. simpl.
  rewrite (getitem_nth _ _ _ Ha). simpl.
  replace (Z.of_nat i + 1)%Z with (Z.of_nat (S i)) by lia.
  rewrite (getitem_nth _ _ _ Hb). simpl.
  pose proof (in_bracket_distinct _ _ _ Hm) as Hd.
  unfold in_bracket in Hm. rewrite Hm.
  unfold MathUtils.interpolate_function.
  rewrite (truediv_ok _ _ Hd). reflexivity.
Qed.

Lemma loop_skip_seq (value : R) (table : list row) (m k : nat) (rest : list Z) :
  (forall i, (k <= i < k + m)%nat ->
     exists a b, nth_error table i = Some a /\
                 nth_error table (S i) = Some b /\
                 in_bracket value a b = false) ->
  MathUtils.interpolate_table_loop value table
    (map Z.of_nat (seq k m) ++ rest) =
  MathUtils.interpolate_table_loop value table rest.
Proof.
  revert k. induction m as [|m IH]; intros k H; [reflexivity|].
  cbn [seq map app].
  destruct (H k) as (a & b & Ha & Hb & Hm); [lia|].
  rewrite (loop_miss _ _ _ _ _ _ Ha Hb Hm).
  apply IH. intros i Hi. apply H. lia.
Qed.

Lemma range_len_pred {A : Type} (l : list A) :
  range (len l - 1)%Z = map Z.of_nat (seq 0 (List.length l - 1)).
Proof. unfold range, len. do 2 f_equal. lia. Qed.

Lemma nth_error_lt {A : Type} (l : list A) (i : nat) :
  (i < List.length l)%nat -> exists a, nth_error l i = Some a.
Proof.
  intros H. destruct (nth_error l i) eqn:E; [eauto|].
  apply nth_error_None in E. lia.
Qed.

(** No bracket is found when every raw value of the table is above the
    query. *)
Lemma loop_none_low (value : R) (table : list row) :
  (forall a, In a table -> value < raw a) ->
  MathUtils.interpolate_table_loop value table (range (len table - 1)%Z) =
  Ok None.
Proof.
  intros H. rewrite range_len_pred.
  rewrite <- (app_nil_r (map _ _)). rewrite loop_skip_seq; [reflexivity|].
  intros i Hi.
  destruct (nth_error_lt table i) as [a Ha]; [lia|].
  destruct (nth_error_lt table (S i)) as [b Hb]; [lia|].
  exists a, b. repeat split; try assumption.
  apply not_true_is_false. rewrite in_bracket_iff.
  pose proof (H a (nth_error_In _ _ Ha)).
  pose proof (H b (nth_error_In _ _ Hb)). lra.
Qed.

(** Nor when the query is at or above the first raw value of a descending
    table. *)
Lemma loop_none_high (value : R) (table : list row) (t0 : row) :
  descending table ->
  nth_error table 0 = Some t0 -> raw t0 <= value ->
  MathUtils.interpolate_table_loop value table (range (len table - 1)%Z) =
  Ok None.
Proof.
  intros Hd H0 Hv. rewrite range_len_pred.
  rewrite <- (app_nil_r (map _ _)). rewrite loop_skip_seq; [reflexivity|].
  intros i Hi.
  destruct (nth_error_lt table i) as [a Ha]; [lia|].
  destruct (nth_error_lt table (S i)) as [b Hb]; [lia|].
  exists a, b. repeat split; try assumption.
  apply not_true_is_false. rewrite in_bracket_iff.
  assert (raw b < raw t0)
    by (apply (descending_nth _ Hd 0 (S i)); (lia || assumption)).
  assert (raw a <= raw t0).
  { destruct i as [|i].
    - rewrite H0 in Ha. injection Ha as <-. lra.
    - left. apply (descending_nth _ Hd 0 (S i)); (lia || assumption). }
  lra.
Qed.

(** In a descending table the first bracket that holds the query is the
    one between the two consecutive raw values around it. *)
Lemma loop_found (value : R) (table : list row) (j : nat) (a b : row) :
  descending table ->
  nth_error table j = Some a -> nth_error table (S j) = Some b ->
  raw b <= value < raw a ->
  MathUtils.interpolate_table_loop value table (range (len table - 1)%Z) =
  Ok (Some ((physical b - physical a) / (raw b - raw a) * (value - raw a)
            + physical a)).
Proof.
  intros Hd Ha Hb Hv. rewrite range_len_pred.
  assert (Hlen : (S j < List.length table)%nat)
    by (apply nth_error_Some; congruence).
  replace (List.length table - 1)%nat with (j + S (List.length table - 2 - j))%nat
    by lia.
  rewrite seq_app, map_app. cbn [seq map].
  rewrite loop_skip_seq.
  - apply loop_hit; try assumption. rewrite in_bracket_iff. lra.
  - intros i Hi.
    destruct (nth_error_lt table i) as [c Hc]; [lia|].
    destruct (nth_error_lt table (S i)) as [d Hd']; [lia|].
    exists c, d. repeat split; try assumption.
    apply not_true_is_false. rewrite in_bracket_iff.
    assert (raw a < raw c)
      by (apply (descending_nth _ Hd i j); (lia || assumption)).
    assert (raw a <= raw d).
    { destruct (Nat.eq_dec (S i) j) as [E|E].
      - subst j. rewrite Ha in Hd'. injection Hd' as <-. lra.
      - left. apply (descending_nth _ Hd (S i) j); (lia || assumption). }
    lra.
Qed.

(** ** What [interpolate_table] returns on a descending table *)

Lemma interpolate_function_line (value : R) (a b : row) :
  raw b <> raw a ->
  MathUtils.interpolate_function value (raw a) (physical a) (raw b) (physical b)
  = Ok (line a b value).
Proof.
  intros H. unfold MathUtils.interpolate_function, line.
  rewrite truediv_ok by lra. reflexivity.
Qed.

Lemma getitem_0 {A : Type} (l : list A) (a : A) :
  nth_error l 0 = Some a -> getitem l 0%Z = Ok a.
Proof. apply (getitem_nth l 0). Qed.

Lemma getitem_1 {A : Type} (l : list A) (a : A) :
  nth_error l 1 = Some a -> getitem l 1%Z = Ok a.
Proof. apply (getitem_nth l 1). Qed.

Lemma getitem_len_minus {A : Type} (l : list A) (k : nat) (i : nat) (a : A) :
  List.length l = (i + k)%nat -> nth_error l i = Some a ->
  getitem l (len l - Z.of_nat k)%Z = Ok a.
Proof.
  intros Hl Ha. unfold len. rewrite Hl.
  replace (Z.of_nat (i + k) - Z.of_nat k)%Z with (Z.of_nat i) by lia.
  apply getitem_nth, Ha.
Qed.

Lemma interpolate_table_inside (value : R) (table : list row) (j : nat)
  (a b : row) :
  descending table ->
  nth_error table j = Some a -> nth_error table (S j) = Some b ->
  raw b <= value < raw a ->
  MathUtils.interpolate_table value table = Ok (line a b value).
Proof.
  intros Hd Ha Hb Hv. unfold MathUtils.interpolate_table.
  rewrite (loop_found _ _ _ _ _ Hd Ha Hb Hv). reflexivity.
Qed.

Lemma interpolate_table_above (value : R) (table : list row) (t0 t1 : row) :
  descending table ->
  nth_error table 0 = Some t0 -> nth_error table 1 = Some t1 ->
  raw t0 < value ->
  MathUtils.interpolate_table value table = Ok (line t0 t1 value).
Proof.
  intros Hd H0 H1 Hv. unfold MathUtils.interpolate_table.
  rewrite (loop_none_high _ _ _ Hd H0) by lra. simpl.
  rewrite (getitem_0 _ _ H0). simpl.
  replace (Rgtb value (raw t0)) with true by (symmetry; apply Rgtb_iff; lra).
  rewrite (getitem_1 _ _ H1). simpl.
  apply interpolate_function_line.
  pose proof (descending_nth _ Hd 0 1 _ _ ltac:(lia) H0 H1). lra.
Qed.

(** The branch "Interpolate as last", once no bracket was found and the
    query is not above the first raw value. *)
Lemma interpolate_table_as_last (value : R) (table : list row) (n : nat)
  (t0 a b : row) :
  descending table ->
  MathUtils.interpolate_table_loop value table (range (len table - 1)%Z)
  = Ok None ->
  List.length table = S (S n) ->
  nth_error table 0 = Some t0 ->
  nth_error table n = Some a -> nth_error table (S n) = Some b ->
  value <= raw t0 ->
  MathUtils.interpolate_table value table = Ok (line a b value).
Proof.
  intros Hd Hloop Hlen H0 Ha Hb Hv. unfold MathUtils.interpolate_table.
  rewrite Hloop. simpl.
  rewrite (getitem_0 _ _ H0). simpl.
  replace (Rgtb value (raw t0)) with false
    by (symmetry; apply not_true_is_false; rewrite Rgtb_iff; lra).
  change 2%Z with (Z.of_nat 2).
  rewrite (getitem_len_minus table 2 n a) by (lia || assumption). simpl.
  change 1%Z with (Z.of_nat 1).
  rewrite (getitem_len_minus table 1 (S n) b) by (lia || assumption). simpl.
  apply interpolate_function_line.
  pose proof (descending_nth _ Hd n (S n) _ _ ltac:(lia) Ha Hb). lra.
Qed.

Lemma interpolate_table_below (value : R) (table : list row) (n : nat)
  (a b : row) :
  descending table ->
  List.length table = S (S n) ->
  nth_error table n = Some a -> nth_error table (S n) = Some b ->
  value < raw b ->
  MathUtils.interpolate_table value table = Ok (line a b value).
Proof.
  intros Hd Hlen Ha Hb Hv.
  assert (Hall : forall c, In c table -> value < raw c).
  { intros c Hc. apply In_nth_error in Hc. destruct Hc as [i Hi].
    assert (i < List.length table)%nat by (apply nth_error_Some; congruence).
    destruct (Nat.eq_dec i (S n)) as [->|Hne].
    - rewrite Hb in Hi. injection Hi as <-. lra.
    - pose proof (descending_nth _ Hd i (S n) _ _ ltac:(lia) Hi Hb). lra. }
  destruct (nth_error_lt table 0) as [t0 H0]; [lia|].
  apply (interpolate_table_as_last value table n t0); try assumption.
  - apply loop_none_low, Hall.
  - left. apply Hall. eapply nth_error_In, H0.
Qed.

(** At the first raw value itself no bracket matches (the test is strict
    on that side) and the query is not above the first raw value either:
    the lookup extrapolates the last segment. *)
Lemma interpolate_table_first_knot (table : list row) (n : nat) (t0 a b : row) :
  descending table ->
  List.length table = S (S n) ->
  nth_error table 0 = Some t0 ->
  nth_error table n = Some a -> nth_error table (S n) = Some b ->
  MathUtils.interpolate_table (raw t0) table = Ok (line a b (raw t0)).
Proof.
  intros Hd Hlen H0 Ha Hb.
  apply (interpolate_table_as_last _ table n t0); try assumption.
  - apply (loop_none_high _ _ t0); (assumption || lra).
  - lra.
Qed.

(** A knot other than the first is reproduced. *)
Lemma interpolate_table_knot (table : list row) (j : nat) (a b : row) :
  descending table ->
  nth_error table j = Some a -> nth_error table (S j) = Some b ->
  MathUtils.interpolate_table (raw b) table = Ok (physical b).
Proof.
  intros Hd Ha Hb.
  pose proof (descending_nth _ Hd j (S j) _ _ ltac:(lia) Ha Hb) as Hlt.
  rewrite (interpolate_table_inside _ _ _ _ _ Hd Ha Hb) by lra.
  f_equal. unfold line. field. lra.
Qed.

Ltac descending_by_computation :=
  unfold descending; repeat constructor; unfold raw; simpl; lra.

Lemma DISTANCE_TABLE_descending : descending Driver.DISTANCE_TABLE.
Proof. descending_by_computation. Qed.

Lemma TOF_TABLE_descending : descending Driver.TOF_TABLE.
Proof. descending_by_computation. Qed.

(** ** Calibration lookup: the claims *)

(** C2 (first knot).  The lookup of the first tabulated raw value of
    [DISTANCE_TABLE], 4095, does not return the tabulated distance 0: no
    bracket matches, 4095 is not above the first raw value, and the branch
    "Interpolate as last" extrapolates the segment between the rows
    (0.05, 120) and (0.06, 104.09), which gives -77909/31820, about -2.45. *)
Theorem interpolate_table_first_knot_DISTANCE_TABLE :
  nth_error Driver.DISTANCE_TABLE 0 = Some (0, 4095) /\
  MathUtils.interpolate_table 4095 Driver.DISTANCE_TABLE
  = Ok (- 77909 / 31820) /\
  - 77909 / 31820 <> 0.
Proof.
  split; [reflexivity|]. split; [|lra].
  pose proof (interpolate_table_first_knot Driver.DISTANCE_TABLE 7%nat
                (0, 4095) (0.05, 120) (0.06, 104.09)
                DISTANCE_TABLE_descending eq_refl eq_refl eq_refl eq_refl)
    as H.
  change (raw (0, 4095)) with 4095 in H. rewrite H.
  f_equal. unfold line, physical, raw; simpl. lra.
Qed.

(** C4.  On a descending table of at least two rows, a query above the first
    raw value returns the value of the line through the first two rows, and
    a query below the last raw value returns the value of the line through
    the last two rows; in both cases the lookup returns ([Ok]) and nothing
    is raised or clamped. *)
Theorem interpolate_table_extrapolates
  (table : list row) (n : nat) (p0 r0 p1 r1 pa ra pb rb : R) (value : R) :
  descending table ->
  List.length table = S (S n) ->
  nth_error table 0 = Some (p0, r0) -> nth_error table 1 = Some (p1, r1) ->
  nth_error table n = Some (pa, ra) -> nth_error table (S n) = Some (pb, rb) ->
  (r0 < value ->
   MathUtils.interpolate_table value table
   = Ok (p0 + (p1 - p0) * (value - r0) / (r1 - r0))) /\
  (value < rb ->
   MathUtils.interpolate_table value table
   = Ok (pa + (pb - pa) * (value - ra) / (rb - ra))).
Proof.
  intros Hd Hlen H0 H1 Ha Hb. split; intros Hv.
  - rewrite (interpolate_table_above _ _ _ _ Hd H0 H1 Hv).
    pose proof (descending_nth _ Hd 0 1 _ _ ltac:(lia) H0 H1) as Hlt.
    unfold line, physical, raw in *; simpl in *. f_equal. field. lra.
  - rewrite (interpolate_table_below _ _ _ _ _ Hd Hlen Ha Hb Hv).
    pose proof (descending_nth _ Hd n (S n) _ _ ltac:(lia) Ha Hb) as Hlt.
    unfold line, physical, raw in *; simpl in *. f_equal. field. lra.
Qed.

(** Ten per cent beyond each end of the 4095 .. 104.09 envelope of
    [DISTANCE_TABLE]. *)
Lemma interpolate_table_extrapolates_witness :
  MathUtils.interpolate_table 4504.5 Driver.DISTANCE_TABLE
  = Ok (0 + (0.005 - 0) * (4504.5 - 4095) / (2133.33 - 4095)) /\
  MathUtils.interpolate_table 93.681 Driver.DISTANCE_TABLE
  = Ok (0.05 + (0.06 - 0.05) * (93.681 - 120) / (104.09 - 120)).
Proof.
  pose proof (interpolate_table_extrapolates Driver.DISTANCE_TABLE 7%nat
                0 4095 0.005 2133.33 0.05 120 0.06 104.09) as H.
  split.
  - apply (H 4504.5 DISTANCE_TABLE_descending eq_refl eq_refl eq_refl
             eq_refl eq_refl). lra.
  - apply (H 93.681 DISTANCE_TABLE_descending eq_refl eq_refl eq_refl
             eq_refl eq_refl). lra.
Defined.

(** C5.  On a descending table, a query strictly between two consecutive
    raw values returns the linear blend of the two physical values; with the
    table [(0, 4095), (0.005, 2133.33)] the lookup of 3114.165 is 0.0025. *)
Theorem interpolate_table_linear_blend :
  (forall (table : list row) (i : nat) (p_i r_i p_i1 r_i1 r : R),
     descending table ->
     nth_error table i = Some (p_i, r_i) ->
     nth_error table (S i) = Some (p_i1, r_i1) ->
     r_i1 < r < r_i ->
     MathUtils.interpolate_table r table
     = Ok (p_i + (p_i1 - p_i) * (r - r_i) / (r_i1 - r_i))) /\
  MathUtils.interpolate_table 3114.165 [(0, 4095); (0.005, 2133.33)]
  = Ok 0.0025.
Proof.
  split.
  - intros table i p_i r_i p_i1 r_i1 r Hd Ha Hb Hr.
    rewrite (interpolate_table_inside _ _ _ _ _ Hd Ha Hb)
      by (unfold raw; simpl; lra).
    unfold line, physical, raw; simpl. f_equal. field. lra.
  - rewrite (interpolate_table_inside _ _ 0%nat (0, 4095) (0.005, 2133.33)).
    + unfold line, physical, raw; simpl. f_equal. lra.
    + descending_by_computation.
    + reflexivity.
    + reflexivity.
    + unfold raw; simpl; lra.
Qed.

(** A query inside the third segment of [DISTANCE_TABLE]. *)
Lemma interpolate_table_linear_blend_witness :
  MathUtils.interpolate_table 1000 Driver.DISTANCE_TABLE
  = Ok (0.01 + (0.015 - 0.01) * (1000 - 1465.73) / (601.46 - 1465.73)).
Proof.
  apply (proj1 interpolate_table_linear_blend Driver.DISTANCE_TABLE 2%nat
           0.01 1465.73 0.015 601.46 1000 DISTANCE_TABLE_descending
           eq_refl eq_refl).
  lra.
Defined.

(** ** Euler angles to quaternion *)

(** C6.  The quaternion of any three angles has norm one, and the quaternion
    of (0, 0, 0) is (0, 0, 0, 1). *)
Theorem euler_to_quaternion_unit :
  (forall roll pitch yaw : R,
     Quaternion.norm2 (MathUtils.euler_to_quaternion roll pitch yaw) = 1) /\
  MathUtils.euler_to_quaternion 0 0 0 = Quaternion.mk 0 0 0 1.
Proof.
  split.
  - intros roll pitch yaw.
    unfold Quaternion.norm2, MathUtils.euler_to_quaternion; simpl.
    pose proof (sin2_cos2 (roll / 2)) as Hr.
    pose proof (sin2_cos2 (pitch / 2)) as Hp.
    pose proof (sin2_cos2 (yaw / 2)) as Hy.
    unfold Rsqr in Hr, Hp, Hy.
    set (sr := sin (roll / 2)) in *. set (cr := cos (roll / 2)) in *.
    set (sp := sin (pitch / 2)) in *. set (cp := cos (pitch / 2)) in *.
    set (sy := sin (yaw / 2)) in *. set (cy := cos (yaw / 2)) in *.
    transitivity ((sr * sr + cr * cr) * (sp * sp + cp * cp) * (sy * sy + cy * cy)).
    + ring.
    + rewrite Hr, Hp, Hy. ring.
  - unfold MathUtils.euler_to_quaternion.
    replace (0 / 2) with 0 by lra.
    rewrite sin_0, cos_0. f_equal; ring.
Qed.

(** ** The two copies of the helpers *)

Lemma euler_to_quaternion_same (roll pitch yaw : R) :
  MathUtils.euler_to_quaternion roll pitch yaw =
  Driver.euler_to_quaternion roll pitch yaw.
Proof. reflexivity. Qed.

Lemma interpolate_function_same (value sx sy ex ey : R) :
  MathUtils.interpolate_function value sx sy ex ey =
  Driver.interpolate_function value sx sy ex ey.
Proof. reflexivity. Qed.

Lemma interpolate_table_loop_same (value : R) (table : list row) (idxs : list Z) :
  MathUtils.interpolate_table_loop value table idxs =
  Driver.interpolate_table_loop value table idxs.
Proof.
  induction idxs as [|i rest IH]; [reflexivity|].
  simpl. destruct (getitem table i) as [ti|e]; [|reflexivity]. simpl.
  destruct (getitem table (i + 1)) as [ti1|e]; [|reflexivity]. simpl.
  rewrite IH, interpolate_function_same. reflexivity.
Qed.

Lemma interpolate_table_same (value : R) (table : list row) :
  MathUtils.interpolate_table value table =
  Driver.interpolate_table value table.
Proof.
  unfold MathUtils.interpolate_table, Driver.interpolate_table.
  rewrite interpolate_table_loop_same.
  destruct (Driver.interpolate_table_loop _ _ _) as [[y|]|e]; try reflexivity.
Qed.

(** C10.  [euler_to_quaternion] and [interpolate_table] of [math_utils.py]
    return, on every input, what their copies in [driver.py] return. *)
Theorem math_utils_driver_copies_agree :
  (forall roll pitch yaw : R,
     MathUtils.euler_to_quaternion roll pitch yaw =
     Driver.euler_to_quaternion roll pitch yaw) /\
  (forall (value : R) (table : list row),
     MathUtils.interpolate_table value table =
     Driver.interpolate_table value table).
Proof.
  split.
  - exact euler_to_quaternion_same.
  - exact interpolate_table_same.
Qed.

(** ** Reset of the odometry on reconfiguration *)

Lemma reset_odometry_zero (self : Driver.EPuckDriver) :
  odometry_is_zero (Driver.reset_odometry self).
Proof.
  unfold odometry_is_zero; simpl. repeat split; try reflexivity.
  - f_equal; lra.
  - lra.
Qed.

Lemma on_param_changed_body_keeps_zero
  (self : Driver.EPuckDriver) (param : Driver.Param) :
  odometry_is_zero self ->
  odometry_is_zero (Driver.on_param_changed_body self param).
Proof.
  intros H. unfold Driver.on_param_changed_body.
  destruct (String.eqb _ _); [apply reset_odometry_zero|].
  destruct (String.eqb _ _); [apply reset_odometry_zero|assumption].
Qed.

Lemma on_param_changed_body_resets
  (self : Driver.EPuckDriver) (param : Driver.Param) :
  is_geometry_param param ->
  odometry_is_zero (Driver.on_param_changed_body self param).
Proof.
  intros [H|H]; unfold Driver.on_param_changed_body; rewrite H; simpl;
    apply reset_odometry_zero.
Qed.

Lemma fold_on_param_changed_keeps_zero
  (params : list Driver.Param) (self : Driver.EPuckDriver) :
  odometry_is_zero self ->
  odometry_is_zero (fold_left Driver.on_param_changed_body params self).
Proof.
  revert self. induction params as [|p rest IH]; intros self H; [assumption|].
  simpl. apply IH, on_param_changed_body_keeps_zero, H.
Qed.

(** C7.  When the parameters passed to [on_param_changed] include
    [wheel_radius] or [wheel_distance], the driver it leaves has position,
    angle and previous left and right ticks all zero, whatever they were
    before. *)
Theorem on_param_changed_resets_odometry
  (self : Driver.EPuckDriver) (params : list Driver.Param) :
  (exists param, In param params /\ is_geometry_param param) ->
  odometry_is_zero (fst (Driver.on_param_changed self params)).
Proof.
  intros (param & Hin & Hg). unfold Driver.on_param_changed; simpl.
  revert self. induction params as [|p rest IH]; intros self; [contradiction|].
  simpl. destruct Hin as [->|Hin].
  - apply fold_on_param_changed_keeps_zero, on_param_changed_body_resets, Hg.
  - apply IH, Hin.
Qed.

(** A driver in the middle of a run receives a new wheel radius. *)
Lemma on_param_changed_resets_odometry_witness :
  odometry_is_zero
    (fst (Driver.on_param_changed
            (Driver.mkEPuckDriver 64 0.021 0.0552 12.5 11.25 (0.3, -0.1) 1.2)
            [Driver.mkParam "camera_period" 32;
             Driver.mkParam "wheel_radius" 0.02])).
Proof.
  apply on_param_changed_resets_odometry.
  exists (Driver.mkParam "wheel_radius" 0.02). split.
  - simpl. right. left. reflexivity.
  - left. reflexivity.
Defined.

(** ** Odometry *)

(** [odometry_callback] returns exactly when neither the encoder period nor
    the wheel distance is zero. *)
Lemma odometry_callback_returns
  (self : Driver.EPuckDriver) (left right : R) :
  encoder_period_s self <> 0 -> Driver.wheel_distance self <> 0 ->
  exists self' msg tf, Driver.odometry_callback self left right = Ok (self', msg, tf).
Proof.
  intros Hdt HL. unfold Driver.odometry_callback, encoder_period_s in *.
  rewrite !truediv_ok by assumption. simpl.
  rewrite truediv_ok by assumption. simpl.
  eauto.
Qed.

Lemma odometry_callback_raises
  (self : Driver.EPuckDriver) (left right : R) :
  encoder_period_s self = 0 \/ Driver.wheel_distance self = 0 ->
  Driver.odometry_callback self left right = Raise ZeroDivisionError.
Proof.
  intros H. unfold Driver.odometry_callback, encoder_period_s in *.
  unfold truediv.
  destruct (Req_dec_T (Driver.period self / 1000.0) 0); simpl; [reflexivity|].
  destruct (Req_dec_T (Driver.wheel_distance self) 0); simpl; [reflexivity|].
  tauto.
Qed.

(** [odometry_inv H] replaces a hypothesis [H] that [odometry_callback]
    returned by the values of the three results. *)
Ltac odometry_inv H :=
  unfold Driver.odometry_callback, truediv in H;
  repeat match type of H with
    | context [Req_dec_T ?a ?b] => destruct (Req_dec_T a b); simpl in H;
                                   [discriminate H|]
    end;
  injection H as <- <- <-; simpl.

(** C9.  With a positive encoder period, the twist that a step emits is
    [v = (v_left + v_right) / 2] and [omega = (v_right - v_left) / L], where
    [v_side = R * (ticks_side - prev_ticks_side) / dt], and the step leaves
    the ticks it read as the previous ticks.  The step does emit a twist
    whenever the wheel distance [L] is not zero (with [L = 0] the division
    by [L] raises). *)
Theorem odometry_twist_and_encoder_update
  (self : Driver.EPuckDriver) (left right : R) :
  let dt := encoder_period_s self in
  let v_left :=
    Driver.wheel_radius self * (left - Driver.prev_left_wheel_ticks self) / dt in
  let v_right :=
    Driver.wheel_radius self * (right - Driver.prev_right_wheel_ticks self) / dt in
  dt > 0 ->
  (forall self' msg tf,
     Driver.odometry_callback self left right = Ok (self', msg, tf) ->
     Driver.twist_linear_x msg = (v_left + v_right) / 2 /\
     Driver.twist_angular_z msg = (v_right - v_left) / Driver.wheel_distance self /\
     Driver.prev_left_wheel_ticks self' = left /\
     Driver.prev_right_wheel_ticks self' = right) /\
  (Driver.wheel_distance self <> 0 ->
   exists self' msg tf,
     Driver.odometry_callback self left right = Ok (self', msg, tf)).
Proof.
  intros dt v_left v_right Hdt. split.
  - intros self' msg tf H. odometry_inv H.
    subst v_left v_right dt. unfold encoder_period_s in *.
    repeat split; field; lra.
  - intros HL. subst dt. apply odometry_callback_returns; [lra|assumption].
Qed.

(** The default geometry of the node, a 64 ms period, and both wheels
    advanced since the previous step. *)
Lemma odometry_twist_and_encoder_update_witness :
  exists self' msg tf,
    Driver.odometry_callback
      (Driver.mkEPuckDriver 64 0.021 0.0552 1 1 (0, 0) 0) 1.32 1.64
    = Ok (self', msg, tf) /\
    Driver.twist_linear_x msg = 0.1575 /\
    Driver.twist_angular_z msg = 175 / 92 /\
    Driver.prev_left_wheel_ticks self' = 1.32 /\
    Driver.prev_right_wheel_ticks self' = 1.64.
Proof.
  destruct (odometry_twist_and_encoder_update
              (Driver.mkEPuckDriver 64 0.021 0.0552 1 1 (0, 0) 0) 1.32 1.64)
    as [Hpart Hret].
  { unfold encoder_period_s; simpl; lra. }
  destruct Hret as (self' & msg & tf & E).
  { simpl; lra. }
  exists self', msg, tf. split; [exact E|].
  destruct (Hpart _ _ _ E) as (Hv & Ho & Hl & Hr).
  unfold encoder_period_s in Hv, Ho. simpl in Hv, Ho.
  repeat split; try assumption.
  - rewrite Hv. lra.
  - rewrite Ho. lra.
Defined.

(** C8.  When the two wheel speeds that a step computes from the encoder
    deltas are opposite, the step leaves the position where it was, emits
    [omega = (v_right - v_left) / L] and adds [omega * dt] to the angle;
    such a step returns whenever period and wheel distance are not zero. *)
Theorem odometry_pure_rotation
  (self : Driver.EPuckDriver) (left right : R) :
  let dt := encoder_period_s self in
  let v_left :=
    (left - Driver.prev_left_wheel_ticks self) / dt * Driver.wheel_radius self in
  let v_right :=
    (right - Driver.prev_right_wheel_ticks self) / dt * Driver.wheel_radius self in
  let omega := (v_right - v_left) / Driver.wheel_distance self in
  v_left = - v_right ->
  (forall self' msg tf,
     Driver.odometry_callback self left right = Ok (self', msg, tf) ->
     Driver.prev_position self' = Driver.prev_position self /\
     Driver.pose_position_x msg = fst (Driver.prev_position self) /\
     Driver.pose_position_y msg = snd (Driver.prev_position self) /\
     Driver.twist_linear_x msg = 0 /\
     Driver.twist_angular_z msg = omega /\
     Driver.prev_angle self' = Driver.prev_angle self + omega * dt) /\
  (dt <> 0 -> Driver.wheel_distance self <> 0 ->
   exists self' msg tf,
     Driver.odometry_callback self left right = Ok (self', msg, tf)).
Proof.
  intros dt v_left v_right omega Hv. split.
  - intros self' msg tf H. odometry_inv H.
    subst omega v_left v_right dt. unfold encoder_period_s in *.
    set (vl := (left - _) / _ * _) in *.
    set (vr := (right - _) / _ * _) in *.
    replace ((vl + vr) / 2) with 0 by lra.
    destruct (Driver.prev_position self) as [x0 y0]; simpl.
    repeat split; try (f_equal; ring); try ring.
    field. lra.
  - intros Hdt HL. apply odometry_callback_returns; assumption.
Qed.

(** The wheels turned by half a radian in opposite directions: the position
    stays at (0.3, -0.1) and the heading turns by
    [0.021 / 0.0552 = 35 / 92]. *)
Lemma odometry_pure_rotation_witness :
  exists self' msg tf,
    Driver.odometry_callback
      (Driver.mkEPuckDriver 64 0.021 0.0552 2 5 (0.3, -0.1) 1.2) 1.5 5.5
    = Ok (self', msg, tf) /\
    Driver.prev_position self' = (0.3, -0.1) /\
    Driver.twist_angular_z msg = 0.328125 / 0.0552 /\
    Driver.prev_angle self' = 1.2 + 35 / 92.
Proof.
  destruct (odometry_pure_rotation
              (Driver.mkEPuckDriver 64 0.021 0.0552 2 5 (0.3, -0.1) 1.2) 1.5 5.5)
    as [Hpart Hret].
  { unfold encoder_period_s; simpl; lra. }
  destruct Hret as (self' & msg & tf & E).
  { unfold encoder_period_s; simpl; lra. }
  { simpl; lra. }
  exists self', msg, tf. split; [exact E|].
  destruct (Hpart _ _ _ E) as (Hp & _ & _ & _ & Ho & Ha).
  unfold encoder_period_s in Ho, Ha. simpl in Ho, Ha.
  split; [exact Hp|]. split.
  - rewrite Ho. lra.
  - rewrite Ha. lra.
Defined.

(** What a step that returns computes, in closed form: the twist from the
    encoder deltas, and the pose from the twist.  The four stages of the
    integration all use the angle [theta0 + dt * omega / 2], except the
    first, which uses [theta0]. *)
Lemma odometry_callback_closed_form
  (self : Driver.EPuckDriver) (left right : R)
  (self' : Driver.EPuckDriver) (msg : Driver.Odometry)
  (tf : Driver.TransformStamped) :
  Driver.odometry_callback self left right = Ok (self', msg, tf) ->
  let dt := encoder_period_s self in
  let theta0 := Driver.prev_angle self in
  let v := Driver.twist_linear_x msg in
  let omega := Driver.twist_angular_z msg in
  v = ((left - Driver.prev_left_wheel_ticks self) / dt * Driver.wheel_radius self
       + (right - Driver.prev_right_wheel_ticks self) / dt * Driver.wheel_radius self)
      / 2 /\
  omega = ((right - Driver.prev_right_wheel_ticks self) / dt * Driver.wheel_radius self
           - (left - Driver.prev_left_wheel_ticks self) / dt * Driver.wheel_radius self)
          / Driver.wheel_distance self /\
  Driver.pose_position_x msg =
    fst (Driver.prev_position self)
    + dt / 6 * v * (cos theta0 + 5 * cos (theta0 + dt * omega / 2)) /\
  Driver.pose_position_y msg =
    snd (Driver.prev_position self)
    + dt / 6 * v * (sin theta0 + 5 * sin (theta0 + dt * omega / 2)) /\
  Driver.prev_angle self' = theta0 + dt * omega /\
  Driver.prev_position self' =
    (Driver.pose_position_x msg, Driver.pose_position_y msg) /\
  Driver.pose_orientation msg =
    Driver.euler_to_quaternion 0 0 (Driver.prev_angle self').
Proof.
  intros H. odometry_inv H. unfold encoder_period_s.
  repeat split; try reflexivity; field; repeat split; (assumption || lra).
Qed.

Lemma cos_half_one : cos 1 < cos (1 / 2).
Proof.
  pose proof PI2_1. apply cos_decreasing_1; lra.
Qed.

(** C1 (last stage).  One step from the origin with a period of 1000 ms,
    wheel radius 1, wheel distance 1, left wheel still and right wheel
    advanced by one radian: the twist is [v = 1/2], [omega = 1], and the new
    x is [(1 + 5 * cos (1/2)) / 12], because the fourth stage is evaluated at
    the half-step angle too; the full-step fourth stage of the specification
    gives [(1 + 4 * cos (1/2) + cos 1) / 12], which is smaller. *)
Theorem odometry_rk4_last_stage_half_step :
  let self := Driver.mkEPuckDriver 1000 1 1 0 0 (0, 0) 0 in
  exists self' msg tf,
    Driver.odometry_callback self 0 1 = Ok (self', msg, tf) /\
    Driver.twist_linear_x msg = 1 / 2 /\
    Driver.twist_angular_z msg = 1 /\
    Driver.pose_position_x msg = (1 + 5 * cos (1 / 2)) / 12 /\
    fst (fst (spec_rk4_pose 0 0 0 (1 / 2) 1 1))
    = (1 + 4 * cos (1 / 2) + cos 1) / 12 /\
    fst (fst (spec_rk4_pose 0 0 0 (1 / 2) 1 1)) < Driver.pose_position_x msg.
Proof.
  intros self.
  destruct (odometry_callback_returns self 0 1) as (self' & msg & tf & E).
  { unfold encoder_period_s; simpl; lra. }
  { simpl; lra. }
  exists self', msg, tf. split; [exact E|].
  destruct (odometry_callback_closed_form _ _ _ _ _ _ E)
    as (Hv & Ho & Hx & _).
  unfold encoder_period_s in *. simpl in Hv, Ho, Hx.
  assert (Hv' : Driver.twist_linear_x msg = 1 / 2) by (rewrite Hv; lra).
  assert (Ho' : Driver.twist_angular_z msg = 1) by (rewrite Ho; lra).
  rewrite Hv', Ho' in Hx.
  replace (0 + 1000 / 1000.0 * 1 / 2) with (1 / 2) in Hx by lra.
  rewrite cos_0 in Hx.
  assert (Hs : fst (fst (spec_rk4_pose 0 0 0 (1 / 2) 1 1))
               = (1 + 4 * cos (1 / 2) + cos 1) / 12).
  { unfold spec_rk4_pose; simpl.
    replace (0 + 1 * 1 / 2) with (1 / 2) by lra.
    replace (0 + 1 * 1) with 1 by lra.
    rewrite cos_0. lra. }
  pose proof cos_half_one.
  repeat split; try assumption; lra.
Qed.

(** ** The lookup never raises on a well-formed table *)

Lemma loop_returns (value : R) (table : list row) (m k : nat) :
  (k + m < List.length table)%nat ->
  exists r,
    MathUtils.interpolate_table_loop value table (map Z.of_nat (seq k m)) = Ok r.
Proof.
  revert k. induction m as [|m IH]; intros k H; [simpl; eauto|].
  cbn [seq map].
  destruct (nth_error_lt table k) as [a Ha]; [lia|].
  destruct (nth_error_lt table (S k)) as [b Hb]; [lia|].
  destruct (in_bracket value a b) eqn:E.
  - rewrite (loop_hit _ _ _ _ _ _ Ha Hb E). eauto.
  - rewrite (loop_miss _ _ _ _ _ _ Ha Hb E). apply IH. lia.
Qed.

Lemma interpolate_table_returns (value : R) (table : list row) :
  descending table -> (2 <= List.length table)%nat ->
  exists y, MathUtils.interpolate_table value table = Ok y.
Proof.
  intros Hd Hlen.
  destruct (List.length table) as [|[|n]] eqn:El; try lia.
  destruct (nth_error_lt table 0) as [t0 H0]; [lia|].
  destruct (nth_error_lt table 1) as [t1 H1]; [lia|].
  destruct (nth_error_lt table n) as [a Ha]; [lia|].
  destruct (nth_error_lt table (S n)) as [b Hb]; [lia|].
  destruct (Rlt_dec (raw t0) value) as [Hv|Hv].
  - rewrite (interpolate_table_above _ _ _ _ Hd H0 H1 Hv). eauto.
  - destruct (loop_returns value table (List.length table - 1) 0) as [r Hr];
      [lia|].
    rewrite <- range_len_pred in Hr.
    destruct r as [y|].
    + unfold MathUtils.interpolate_table. rewrite Hr. simpl. eauto.
    + rewrite (interpolate_table_as_last value table n t0 a b);
        (eauto || lra).
Qed.

Lemma interpolate_table_calibrated (table : list row) (value : R) :
  descending table -> (2 <= List.length table)%nat ->
  Driver.interpolate_table value table = Ok (calibrated table value).
Proof.
  intros Hd Hlen. unfold calibrated.
  destruct (interpolate_table_returns value table Hd Hlen) as [y Hy].
  rewrite <- interpolate_table_same, Hy. reflexivity.
Qed.

(** ** Assembly of the scan *)

Lemma update_app {A : Type} (done pad : list A) (p a : A) :
  update (done ++ p :: pad) (List.length done) a = done ++ a :: pad.
Proof. induction done as [|h t IH]; simpl; [reflexivity|]. rewrite IH. reflexivity. Qed.

Lemma setitem_app {A : Type} (done pad : list A) (p a : A) :
  setitem (done ++ p :: pad) (Z.of_nat (List.length done)) a
  = Ok (done ++ a :: pad).
Proof.
  unfold setitem, len. rewrite length_app. simpl.
  destruct (Z.ltb_spec (Z.of_nat (List.length done)) 0); [lia|].
  destruct (Z.leb_spec 0 (Z.of_nat (List.length done))); [|lia].
  destruct (Z.ltb_spec (Z.of_nat (List.length done))
              (Z.of_nat (List.length done + S (List.length pad)))); [|lia].
  simpl. rewrite Nat2Z.id, update_app. reflexivity.
Qed.

(** The first loop of [distance_callback] overwrites the leading entries
    of [dists] with the calibrated readings, in order. *)
Lemma calculate_distances_app (rest done pad : list R) :
  (List.length rest <= List.length pad)%nat ->
  Driver.calculate_distances
    (combine (map Z.of_nat (seq (List.length done) (List.length rest))) rest)
    (done ++ pad)
  = Ok (done ++ map (calibrated Driver.DISTANCE_TABLE) rest
          ++ skipn (List.length rest) pad).
Proof.
  revert done pad. induction rest as [|v rest IH]; intros done pad Hlen.
  - reflexivity.
  - destruct pad as [|p pad]; [simpl in Hlen; lia|].
    cbn [List.length seq map combine Driver.calculate_distances].
    rewrite (interpolate_table_calibrated _ _ DISTANCE_TABLE_descending)
      by (simpl; lia).
    cbn [bind]. rewrite setitem_app. cbn [bind].
    specialize (IH (done ++ [calibrated Driver.DISTANCE_TABLE v]) pad).
    rewrite length_app, Nat.add_1_r, <- !app_assoc in IH. cbn [app] in IH.
    simpl in Hlen. rewrite IH by lia. reflexivity.
Qed.

Lemma calculate_distances_eight (sensors : list R) :
  List.length sensors = 8%nat ->
  Driver.calculate_distances (Driver.enumerate sensors)
    (repeat Driver.OUT_OF_RANGE Driver.NB_INFRARED_SENSORS)
  = Ok (map (calibrated Driver.DISTANCE_TABLE) sensors).
Proof.
  intros H. unfold Driver.enumerate, range, len. rewrite Nat2Z.id.
  pose proof (calculate_distances_app sensors []
                (repeat Driver.OUT_OF_RANGE Driver.NB_INFRARED_SENSORS)) as E.
  cbn [app List.length] in E. rewrite E.
  - rewrite H. simpl skipn. rewrite app_nil_r. reflexivity.
  - rewrite H. simpl. lia.
Qed.

Lemma last_of_eight (sensors : list R) :
  List.length sensors = 8%nat ->
  List.last (map Some sensors) None = Some (nth 7 sensors 0).
Proof.
  intros H.
  do 8 (destruct sensors as [|? sensors]; [discriminate H|]).
  destruct sensors; [reflexivity|discriminate H].
Qed.

(** What [distance_callback] returns for the eight sensors of the robot:
    the scan over the calibrated readings, with the time-of-flight distance
    looked up from the reading of the last sensor, [ps7]. *)
Lemma distance_callback_eight (sensors : list R) :
  List.length sensors = 8%nat ->
  Driver.distance_callback sensors =
  (rs <- Driver.scan_ranges Driver.SENSOR_DIST_FROM_CENTER
           (map (calibrated Driver.DISTANCE_TABLE) sensors)
           (calibrated Driver.TOF_TABLE (nth 7 sensors 0)) ;;
   Ok {| Driver.angle_min := - 150 * PI / 180;
         Driver.angle_max := 150 * PI / 180;
         Driver.angle_increment := 15 * PI / 180;
         Driver.range_min := 0.005 + Driver.SENSOR_DIST_FROM_CENTER;
         Driver.range_max := 1.0 + Driver.SENSOR_DIST_FROM_CENTER;
         Driver.ranges := rs |}).
Proof.
  intros H. unfold Driver.distance_callback.
  rewrite (calculate_distances_eight _ H). cbn [bind].
  rewrite (last_of_eight _ H).
  rewrite (interpolate_table_calibrated _ _ TOF_TABLE_descending)
    by (simpl; lia).
  reflexivity.
Qed.

Lemma scan_ranges_eight (s d0 d1 d2 d3 d4 d5 d6 d7 dist_tof : R) :
  Driver.scan_ranges s [d0; d1; d2; d3; d4; d5; d6; d7] dist_tof =
  Ok [ d3 + s; Driver.OUT_OF_RANGE; Driver.OUT_OF_RANGE; Driver.OUT_OF_RANGE;
       d2 + s; Driver.OUT_OF_RANGE; Driver.OUT_OF_RANGE;
       d1 + s; Driver.OUT_OF_RANGE;
       d0 + s; dist_tof + s; d7 + s; Driver.OUT_OF_RANGE;
       d6 + s; Driver.OUT_OF_RANGE; Driver.OUT_OF_RANGE;
       d5 + s; Driver.OUT_OF_RANGE; Driver.OUT_OF_RANGE; Driver.OUT_OF_RANGE;
       d4 + s ].
Proof. reflexivity. Qed.

Lemma scan_ranges_layout (dists : list R) (dist_tof s : R) :
  List.length dists = 8%nat ->
  exists rs,
    Driver.scan_ranges s dists dist_tof = Ok rs /\
    List.length rs = 21%nat /\
    (forall i, (i < 8)%nat ->
       nth (nth i sensor_bins 0%nat) rs 0 = nth i dists 0 + s) /\
    nth tof_bin rs 0 = dist_tof + s /\
    (forall j, (j < 21)%nat -> ~ In j (tof_bin :: sensor_bins) ->
       nth j rs 0 = 0).
Proof.
  intros H.
  do 8 (destruct dists as [|? dists]; [discriminate H|]).
  destruct dists; [|discriminate H].
  eexists. split; [apply scan_ranges_eight|].
  split; [reflexivity|]. split; [|split; [reflexivity|]].
  - intros i Hi.
    do 8 (destruct i as [|i]; [reflexivity|]). lia.
  - intros j Hj Hn.
    do 21 (destruct j as [|j];
           [first [ exfalso; apply Hn; simpl; tauto
                  | simpl; unfold Driver.OUT_OF_RANGE; lra ] |]).
    lia.
Qed.

Lemma calibrated_tof_1052 : calibrated Driver.TOF_TABLE 1052 = 1.
Proof.
  unfold calibrated. rewrite <- interpolate_table_same.
  replace 1052 with (raw (1.00, 1052.0)) by (unfold raw; simpl; lra).
  rewrite (interpolate_table_knot Driver.TOF_TABLE 1 (1.70, 1780.5) (1.00, 1052.0)
             TOF_TABLE_descending eq_refl eq_refl).
  unfold physical; simpl. lra.
Qed.

(** C3, as stated, fails.  With all eight sensors reading 1052 the scan
    holds 1.035 in bin 10, the bin at 0 degrees: the distance 1 looked up in
    [TOF_TABLE] plus the offset 0.035.  Bin 10 is none of the eight sensor
    bins, so the scan has nine populated bins and twelve sentinels. *)
Lemma distance_callback_center_bin_not_sentinel :
  exists scan,
    Driver.distance_callback [1052; 1052; 1052; 1052; 1052; 1052; 1052; 1052]
    = Ok scan /\
    nth 10 (Driver.ranges scan) 0 = 1.035 /\
    forall (values : list R) (s : R),
      ~ spec_scan_layout (Driver.ranges scan) values s.
Proof.
  rewrite distance_callback_eight by reflexivity.
  cbn [map nth]. rewrite scan_ranges_eight. cbn [bind].
  eexists. split; [reflexivity|].
  cbn [Driver.ranges nth]. rewrite calibrated_tof_1052.
  assert (H10 : 1 + Driver.SENSOR_DIST_FROM_CENTER = 1.035)
    by (unfold Driver.SENSOR_DIST_FROM_CENTER; lra).
  split; [exact H10|].
  intros values s (_ & _ & Hrest).
  specialize (Hrest 10%nat ltac:(lia)).
  cbn [nth] in Hrest. rewrite H10 in Hrest.
  assert (1.035 = 0); [|lra].
  apply Hrest. unfold sensor_bins. simpl. intuition lia.
Qed.

(** C3, amended.  For eight calibrated distances [dists], a time-of-flight
    distance [dist_tof] and an offset [s], the scan has 21 bins; the bins
    9, 7, 4, 0, 20, 16, 13, 11 hold [dists[0] + s] .. [dists[7] + s], bin 10
    holds [dist_tof + s], and the other twelve bins hold zero whatever [s]
    is.  [distance_callback] returns this scan for the calibrated readings
    of the eight sensors, with the offset 0.035 and the angles running from
    -150 to 150 degrees in twenty steps of 15 degrees. *)
Theorem scan_layout_with_tof_bin :
  (forall (dists : list R) (dist_tof s : R),
     List.length dists = 8%nat ->
     exists rs,
       Driver.scan_ranges s dists dist_tof = Ok rs /\
       List.length rs = 21%nat /\
       (forall i, (i < 8)%nat ->
          nth (nth i sensor_bins 0%nat) rs 0 = nth i dists 0 + s) /\
       nth tof_bin rs 0 = dist_tof + s /\
       (forall j, (j < 21)%nat -> ~ In j (tof_bin :: sensor_bins) ->
          nth j rs 0 = 0)) /\
  NoDup (tof_bin :: sensor_bins) /\
  Forall (fun j => (j < 21)%nat) (tof_bin :: sensor_bins) /\
  (forall sensors : list R,
     List.length sensors = 8%nat ->
     exists scan,
       Driver.distance_callback sensors = Ok scan /\
       Driver.scan_ranges Driver.SENSOR_DIST_FROM_CENTER
         (map (calibrated Driver.DISTANCE_TABLE) sensors)
         (calibrated Driver.TOF_TABLE (nth 7 sensors 0))
       = Ok (Driver.ranges scan) /\
       Driver.angle_min scan = - (150 * (PI / 180)) /\
       Driver.angle_increment scan = 15 * (PI / 180) /\
       Driver.angle_max scan =
         Driver.angle_min scan + 20 * Driver.angle_increment scan).
Proof.
  split; [exact scan_ranges_layout|]. split; [|split].
  - unfold tof_bin, sensor_bins.
    repeat (constructor; [simpl; intuition lia|]). constructor.
  - unfold tof_bin, sensor_bins. repeat constructor.
  - intros sensors H.
    destruct (scan_ranges_layout (map (calibrated Driver.DISTANCE_TABLE) sensors)
                (calibrated Driver.TOF_TABLE (nth 7 sensors 0))
                Driver.SENSOR_DIST_FROM_CENTER) as (rs & Hrs & _).
    { rewrite length_map. exact H. }
    rewrite (distance_callback_eight _ H), Hrs. cbn [bind].
    eexists. split; [reflexivity|]. cbn.
    repeat split; lra.
Qed.

(** Eight distances, a time-of-flight distance and the offset of the
    driver. *)
Lemma scan_layout_with_tof_bin_witness :
  exists rs,
    Driver.scan_ranges 0.035
      [0.01; 0.02; 0.03; 0.04; 0.05; 0.06; 0.015; 0.005] 1.5 = Ok rs /\
    List.length rs = 21%nat /\
    nth 9 rs 0 = 0.01 + 0.035 /\
    nth tof_bin rs 0 = 1.5 + 0.035 /\
    nth 1 rs 0 = 0.
Proof.
  destruct (proj1 scan_layout_with_tof_bin
              [0.01; 0.02; 0.03; 0.04; 0.05; 0.06; 0.015; 0.005] 1.5 0.035
              eq_refl) as (rs & Hrs & Hlen & Hs & Ht & Hz).
  exists rs. repeat split; try assumption.
  - apply (Hs 0%nat). lia.
  - apply Hz; [lia|]. unfold tof_bin, sensor_bins. simpl. intuition lia.
Defined.

(** * Further properties of the code *)

(** ** [interpolate_function] *)

(** X1.  [interpolate_function] gives the same result when the two points
    are swapped; it raises [ZeroDivisionError] when they have the same
    abscissa, and otherwise returns [start_y] at [start_x] and [end_y] at
    [end_x]. *)
Theorem interpolate_function_two_points
  (value start_x start_y end_x end_y : R) :
  MathUtils.interpolate_function value start_x start_y end_x end_y
  = MathUtils.interpolate_function value end_x end_y start_x start_y /\
  (start_x = end_x ->
   MathUtils.interpolate_function value start_x start_y end_x end_y
   = Raise ZeroDivisionError) /\
  (start_x <> end_x ->
   MathUtils.interpolate_function start_x start_x start_y end_x end_y
   = Ok start_y /\
   MathUtils.interpolate_function end_x start_x start_y end_x end_y
   = Ok end_y).
Proof.
  unfold MathUtils.interpolate_function, truediv. repeat split.
  - destruct (Req_dec_T (end_x - start_x) 0), (Req_dec_T (start_x - end_x) 0);
      simpl; try reflexivity; try (exfalso; lra).
    f_equal. field. split; lra.
  - intros ->. destruct (Req_dec_T (end_x - end_x) 0); [reflexivity|lra].
  - destruct (Req_dec_T (end_x - start_x) 0); [lra|]. simpl. f_equal. ring.
  - destruct (Req_dec_T (end_x - start_x) 0); [lra|]. simpl. f_equal. field.
    assumption.
Qed.

(** The first segment of [DISTANCE_TABLE]. *)
Lemma interpolate_function_two_points_witness :
  MathUtils.interpolate_function 4095 4095 0 2133.33 0.005 = Ok 0 /\
  MathUtils.interpolate_function 2133.33 4095 0 2133.33 0.005 = Ok 0.005.
Proof.
  apply (interpolate_function_two_points 0 4095 0 2133.33 0.005). lra.
Defined.

(** ** [interpolate_table] on malformed and well-formed tables *)

(** X2.  On a table with fewer than two rows the lookup always raises: on
    the empty table [table[0]] raises [IndexError]; on a one-row table a
    query above the row's raw value raises [IndexError] at [table[1]], and
    any other query reads the single row twice (as [table[-1]] and
    [table[0]]) and raises [ZeroDivisionError]. *)
Theorem interpolate_table_short_table_raises (value : R) :
  MathUtils.interpolate_table value [] = Raise IndexError /\
  (forall t : row, raw t < value ->
     MathUtils.interpolate_table value [t] = Raise IndexError) /\
  (forall t : row, value <= raw t ->
     MathUtils.interpolate_table value [t] = Raise ZeroDivisionError).
Proof.
  split; [reflexivity|]. split; intros t Ht.
  - unfold MathUtils.interpolate_table. simpl.
    replace (Rgtb value (raw t)) with true by (symmetry; apply Rgtb_iff; lra).
    reflexivity.
  - unfold MathUtils.interpolate_table. simpl.
    replace (Rgtb value (raw t)) with false
      by (symmetry; apply not_true_is_false; rewrite Rgtb_iff; lra).
    unfold MathUtils.interpolate_function, truediv.
    destruct (Req_dec_T (raw t - raw t) 0); [reflexivity|lra].
Qed.

(** A one-row table, queried above and below its row. *)
Lemma interpolate_table_short_table_raises_witness :
  MathUtils.interpolate_table 5000 [(0, 4095)] = Raise IndexError /\
  MathUtils.interpolate_table 100 [(0, 4095)] = Raise ZeroDivisionError.
Proof.
  split.
  - apply (proj1 (proj2 (interpolate_table_short_table_raises 5000))).
    unfold raw; simpl; lra.
  - apply (proj2 (proj2 (interpolate_table_short_table_raises 100))).
    unfold raw; simpl; lra.
Defined.

(** X3.  On a descending table of at least two rows the lookup returns a
    value for every query: it never raises. *)
Theorem interpolate_table_never_raises (value : R) (table : list row) :
  descending table -> (2 <= List.length table)%nat ->
  exists y, MathUtils.interpolate_table value table = Ok y /\
            Driver.interpolate_table value table = Ok y.
Proof.
  intros Hd Hlen.
  destruct (interpolate_table_returns value table Hd Hlen) as [y Hy].
  exists y. split; [exact Hy|]. rewrite <- interpolate_table_same. exact Hy.
Qed.

Lemma interpolate_table_never_raises_witness :
  exists y, MathUtils.interpolate_table 7000 Driver.TOF_TABLE = Ok y /\
            Driver.interpolate_table 7000 Driver.TOF_TABLE = Ok y.
Proof.
  apply interpolate_table_never_raises.
  - exact TOF_TABLE_descending.
  - simpl; lia.
Defined.

(** X4.  On a descending table the lookup of the raw value of any row but
    the first returns the physical value of that row. *)
Theorem interpolate_table_reproduces_later_knots
  (table : list row) (j : nat) (p r : R) :
  descending table ->
  nth_error table (S j) = Some (p, r) ->
  MathUtils.interpolate_table r table = Ok p.
Proof.
  intros Hd Hb.
  destruct (nth_error_lt table j) as [a Ha].
  { assert (S j < List.length table)%nat by (apply nth_error_Some; congruence).
    lia. }
  apply (interpolate_table_knot table j a (p, r) Hd Ha Hb).
Qed.

(** The last row of [TOF_TABLE]. *)
Lemma interpolate_table_reproduces_later_knots_witness :
  MathUtils.interpolate_table 19.8 Driver.TOF_TABLE = Ok 0.00.
Proof.
  apply (interpolate_table_reproduces_later_knots Driver.TOF_TABLE 6).
  - exact TOF_TABLE_descending.
  - reflexivity.
Defined.

(** X5.  On a descending table of at least two rows the lookup of the first
    raw value returns the value, at that raw value, of the line through the
    last two rows; when the table has exactly two rows this is the first
    physical value. *)
Theorem interpolate_table_at_first_raw
  (table : list row) (n : nat) (p0 r0 pa ra pb rb : R) :
  descending table ->
  List.length table = S (S n) ->
  nth_error table 0 = Some (p0, r0) ->
  nth_error table n = Some (pa, ra) -> nth_error table (S n) = Some (pb, rb) ->
  MathUtils.interpolate_table r0 table
  = Ok ((pb - pa) / (rb - ra) * (r0 - ra) + pa) /\
  (n = 0%nat -> MathUtils.interpolate_table r0 table = Ok p0).
Proof.
  intros Hd Hlen H0 Ha Hb.
  pose proof (interpolate_table_first_knot table n _ _ _ Hd Hlen H0 Ha Hb) as E.
  unfold line, raw, physical in E; simpl in E.
  split; [exact E|].
  intros ->. rewrite E. rewrite H0 in Ha. injection Ha as <- <-.
  f_equal. lra.
Qed.

Lemma interpolate_table_at_first_raw_witness :
  MathUtils.interpolate_table 2000.0 Driver.TOF_TABLE
  = Ok ((0.00 - 0.05) / (19.8 - 58.5) * (2000.0 - 58.5) + 0.05).
Proof.
  apply (interpolate_table_at_first_raw Driver.TOF_TABLE 6 2.00 2000.0
           0.05 58.5 0.00 19.8 TOF_TABLE_descending eq_refl eq_refl
           eq_refl eq_refl).
Defined.

(** ** Brackets, bounds and monotonicity of the lookup *)

Lemma sorted_nth {A : Type} (rel : A -> A -> Prop) (l : list A) :
  (forall a b c, rel a b -> rel b c -> rel a c) ->
  Sorted rel l ->
  forall (i j : nat) (a b : A),
    (i < j)%nat -> nth_error l i = Some a -> nth_error l j = Some b ->
    rel a b.
Proof.
  intros Htrans H. apply Sorted_StronglySorted in H; [|exact Htrans].
  induction H as [|h t Ht IH Hall]; intros i j a b Hij Ha Hb.
  - destruct i; discriminate.
  - destruct j as [|j]; [lia|].
    destruct i as [|i]; simpl in Ha, Hb.
    + injection Ha as <-.
      rewrite Forall_forall in Hall. apply Hall.
      eapply nth_error_In; eassumption.
    + apply (IH i j); (lia || assumption).
Qed.

Lemma physical_ascending_nth (table : list row) :
  physical_ascending table ->
  forall (i j : nat) (a b : row),
    (i <= j)%nat -> nth_error table i = Some a -> nth_error table j = Some b ->
    physical a <= physical b.
Proof.
  intros H i j a b Hij Ha Hb.
  destruct (Nat.eq_dec i j) as [->|Hne].
  - rewrite Ha in Hb. injection Hb as <-. lra.
  - apply (sorted_nth _ table (fun a b c Hab Hbc => Rle_trans _ _ _ Hab Hbc)
             H i j); (lia || assumption).
Qed.

(** A query between the last and the first raw value lies in the bracket
    of two consecutive rows. *)
Lemma locate_bracket (value : R) (table : list row) :
  forall (t0 l : row) (n : nat),
    nth_error table 0 = Some t0 ->
    List.length table = S n -> nth_error table n = Some l ->
    raw l <= value < raw t0 ->
    exists (j : nat) (a b : row),
      nth_error table j = Some a /\ nth_error table (S j) = Some b /\
      raw b <= value < raw a.
Proof.
  induction table as [|h tl IH]; intros t0 l n H0 Hlen Hl Hv; [discriminate|].
  simpl in H0. injection H0 as ->.
  destruct n as [|n].
  - simpl in Hl. injection Hl as ->. lra.
  - destruct tl as [|t1 tl']; [discriminate|].
    destruct (Rle_dec (raw t1) value) as [Hle|Hgt].
    + exists 0%nat, t0, t1. repeat split; (reflexivity || lra).
    + destruct (IH t1 l n eq_refl) as (j & a & b & Ha & Hb & Hab).
      * simpl in Hlen. simpl. lia.
      * exact Hl.
      * lra.
      * exists (S j), a, b. repeat split; (assumption || lra).
Qed.

(** Between two rows whose raw values descend and whose physical values do
    not, the line stays between the two physical values and does not
    increase with the query. *)
Lemma line_between (a b : row) (value : R) :
  raw b <= value <= raw a -> raw b < raw a -> physical a <= physical b ->
  physical a <= line a b value <= physical b.
Proof.
  intros Hv Hr Hp. unfold line.
  set (t := (value - raw a) / (raw b - raw a)).
  assert (Ht : 0 <= t <= 1).
  { unfold t. split.
    - apply Rmult_le_reg_r with (raw a - raw b); [lra|].
      replace ((value - raw a) / (raw b - raw a) * (raw a - raw b))
        with (raw a - value) by (field; lra). lra.
    - apply Rmult_le_reg_r with (raw a - raw b); [lra|].
      replace ((value - raw a) / (raw b - raw a) * (raw a - raw b))
        with (raw a - value) by (field; lra). lra. }
  replace ((physical b - physical a) / (raw b - raw a) * (value - raw a))
    with ((physical b - physical a) * t) by (unfold t; field; lra).
  nra.
Qed.

Lemma line_decreasing (a b : row) (v1 v2 : R) :
  v1 <= v2 -> raw b < raw a -> physical a <= physical b ->
  line a b v2 <= line a b v1.
Proof.
  intros Hv Hr Hp. unfold line.
  assert (Hs : (physical b - physical a) / (raw b - raw a) <= 0).
  { apply Rmult_le_reg_r with (raw a - raw b); [lra|].
    replace ((physical b - physical a) / (raw b - raw a) * (raw a - raw b))
      with (physical a - physical b) by (field; lra). lra. }
  nra.
Qed.

(** Inside its raw range the lookup stays inside the physical range. *)
Lemma interpolate_table_bounds
  (table : list row) (n : nat) (t0 l : row) (value : R) :
  descending table -> physical_ascending table ->
  nth_error table 0 = Some t0 ->
  List.length table = S n -> nth_error table n = Some l ->
  raw l <= value < raw t0 ->
  exists y, MathUtils.interpolate_table value table = Ok y /\
            physical t0 <= y <= physical l.
Proof.
  intros Hd Hp H0 Hlen Hl Hv.
  destruct (locate_bracket value table t0 l n H0 Hlen Hl Hv)
    as (j & a & b & Ha & Hb & Hab).
  exists (line a b value). split.
  - apply (interpolate_table_inside _ _ j); assumption.
  - pose proof (descending_nth _ Hd j (S j) _ _ ltac:(lia) Ha Hb) as Hr.
    assert (S j < List.length table)%nat by (apply nth_error_Some; congruence).
    pose proof (physical_ascending_nth _ Hp 0 j _ _ ltac:(lia) H0 Ha).
    pose proof (physical_ascending_nth _ Hp j (S j) _ _ ltac:(lia) Ha Hb).
    pose proof (physical_ascending_nth _ Hp (S j) n _ _ ltac:(lia) Hb Hl).
    pose proof (line_between a b value ltac:(lra) Hr ltac:(lra)). lra.
Qed.

(** X6.  On a descending table whose physical column does not decrease, a
    query from the last raw value up to, but not including, the first one
    returns a value between the first and the last physical value. *)
Theorem interpolate_table_within_physical_range
  (table : list row) (n : nat) (t0 l : row) (value : R) :
  descending table -> physical_ascending table ->
  nth_error table 0 = Some t0 ->
  List.length table = S n -> nth_error table n = Some l ->
  raw l <= value < raw t0 ->
  exists y, MathUtils.interpolate_table value table = Ok y /\
            physical t0 <= y <= physical l.
Proof. apply interpolate_table_bounds. Qed.

Lemma DISTANCE_TABLE_physical_ascending :
  physical_ascending Driver.DISTANCE_TABLE.
Proof. unfold physical_ascending; repeat constructor; unfold physical; simpl; lra. Qed.

(** A reading of 1000 of an infrared sensor is calibrated to a distance
    between 0 and 0.06. *)
Lemma interpolate_table_within_physical_range_witness :
  exists y, MathUtils.interpolate_table 1000 Driver.DISTANCE_TABLE = Ok y /\
            physical (0, 4095) <= y <= physical (0.06, 104.09).
Proof.
  apply (interpolate_table_within_physical_range Driver.DISTANCE_TABLE 8
           (0, 4095) (0.06, 104.09) 1000
           DISTANCE_TABLE_descending DISTANCE_TABLE_physical_ascending
           eq_refl eq_refl eq_refl).
  unfold raw; simpl; lra.
Defined.

(** X7.  On such a table the lookup does not increase with the query: of two
    queries inside the raw range of the table, the larger one returns the
    smaller (or the same) physical value. *)
Theorem interpolate_table_antitone
  (table : list row) (n : nat) (t0 l : row) (v1 v2 : R) :
  descending table -> physical_ascending table ->
  nth_error table 0 = Some t0 ->
  List.length table = S n -> nth_error table n = Some l ->
  raw l <= v1 -> v1 <= v2 -> v2 < raw t0 ->
  exists y1 y2,
    MathUtils.interpolate_table v1 table = Ok y1 /\
    MathUtils.interpolate_table v2 table = Ok y2 /\
    y2 <= y1.
Proof.
  intros Hd Hp H0 Hlen Hl H1 H12 H2.
  destruct (locate_bracket v1 table t0 l n H0 Hlen Hl ltac:(lra))
    as (i & a1 & b1 & Ha1 & Hb1 & Hab1).
  destruct (locate_bracket v2 table t0 l n H0 Hlen Hl ltac:(lra))
    as (j & a2 & b2 & Ha2 & Hb2 & Hab2).
  exists (line a1 b1 v1), (line a2 b2 v2).
  split; [apply (interpolate_table_inside _ _ i); assumption|].
  split; [apply (interpolate_table_inside _ _ j); assumption|].
  pose proof (descending_nth _ Hd i (S i) _ _ ltac:(lia) Ha1 Hb1) as Hr1.
  pose proof (descending_nth _ Hd j (S j) _ _ ltac:(lia) Ha2 Hb2) as Hr2.
  pose proof (physical_ascending_nth _ Hp i (S i) _ _ ltac:(lia) Ha1 Hb1) as Hp1.
  pose proof (physical_ascending_nth _ Hp j (S j) _ _ ltac:(lia) Ha2 Hb2) as Hp2.
  destruct (Nat.lt_trichotomy i j) as [Hlt|[Heq|Hgt]].
  - exfalso.
    assert (raw a2 <= raw b1).
    { destruct (Nat.eq_dec (S i) j) as [E|E].
      - subst j. rewrite Hb1 in Ha2. injection Ha2 as <-. lra.
      - left. apply (descending_nth _ Hd (S i) j); (lia || assumption). }
    lra.
  - subst j. rewrite Ha1 in Ha2. rewrite Hb1 in Hb2.
    injection Ha2 as <-. injection Hb2 as <-.
    apply line_decreasing; assumption.
  - pose proof (physical_ascending_nth _ Hp (S j) i _ _ ltac:(lia) Hb2 Ha1).
    pose proof (line_between a1 b1 v1 ltac:(lra) Hr1 Hp1).
    pose proof (line_between a2 b2 v2 ltac:(lra) Hr2 Hp2).
    lra.
Qed.

(** Two readings of an infrared sensor, the second the larger. *)
Lemma interpolate_table_antitone_witness :
  exists y1 y2,
    MathUtils.interpolate_table 300 Driver.DISTANCE_TABLE = Ok y1 /\
    MathUtils.interpolate_table 3000 Driver.DISTANCE_TABLE = Ok y2 /\
    y2 <= y1.
Proof.
  apply (interpolate_table_antitone Driver.DISTANCE_TABLE 8
           (0, 4095) (0.06, 104.09) 300 3000
           DISTANCE_TABLE_descending DISTANCE_TABLE_physical_ascending
           eq_refl eq_refl eq_refl);
    unfold raw; simpl; lra.
Defined.

(** ** Tables in ascending order *)

(** The loop returns at the first pair of rows whose bracket holds the
    query. *)
Lemma loop_first_match (value : R) (table : list row) (j : nat) (a b : row) :
  nth_error table j = Some a -> nth_error table (S j) = Some b ->
  in_bracket value a b = true ->
  (forall i c d, (i < j)%nat ->
     nth_error table i = Some c -> nth_error table (S i) = Some d ->
     in_bracket value c d = false) ->
  MathUtils.interpolate_table_loop value table (range (len table - 1)%Z) =
  Ok (Some (line a b value)).
Proof.
  intros Ha Hb Hm Hbefore. rewrite range_len_pred.
  assert (Hlen : (S j < List.length table)%nat)
    by (apply nth_error_Some; congruence).
  replace (List.length table - 1)%nat with (j + S (List.length table - 2 - j))%nat
    by lia.
  rewrite seq_app, map_app. cbn [seq map].
  rewrite loop_skip_seq.
  - apply loop_hit; assumption.
  - intros i Hi.
    destruct (nth_error_lt table i) as [c Hc]; [lia|].
    destruct (nth_error_lt table (S i)) as [d Hd]; [lia|].
    exists c, d. repeat split; try assumption.
    apply (Hbefore i); (lia || assumption).
Qed.

Lemma ascending_nth (table : list row) :
  ascending table ->
  forall (i j : nat) (a b : row),
    (i <= j)%nat -> nth_error table i = Some a -> nth_error table j = Some b ->
    raw a <= raw b.
Proof.
  intros H i j a b Hij Ha Hb.
  destruct (Nat.eq_dec i j) as [->|Hne].
  - rewrite Ha in Hb. injection Hb as <-. lra.
  - left.
    apply (sorted_nth _ table (fun a b c Hab Hbc => Rlt_trans _ _ _ Hab Hbc)
             H i j); (lia || assumption).
Qed.

(** X8.  The mirrored test of the loop serves tables in ascending order: on
    a table whose raw column strictly ascends, a query above one raw value
    and up to the next one returns the linear blend of the two rows. *)
Theorem interpolate_table_ascending_inside
  (table : list row) (i : nat) (p_i r_i p_i1 r_i1 r : R) :
  ascending table ->
  nth_error table i = Some (p_i, r_i) ->
  nth_error table (S i) = Some (p_i1, r_i1) ->
  r_i < r <= r_i1 ->
  MathUtils.interpolate_table r table
  = Ok (p_i + (p_i1 - p_i) * (r - r_i) / (r_i1 - r_i)).
Proof.
  intros Hs Ha Hb Hr. unfold MathUtils.interpolate_table.
  rewrite (loop_first_match r table i (p_i, r_i) (p_i1, r_i1) Ha Hb).
  - simpl. unfold line, physical, raw; simpl. f_equal. field. lra.
  - rewrite in_bracket_iff. unfold raw; simpl. lra.
  - intros k c d Hk Hc Hd.
    apply not_true_is_false. rewrite in_bracket_iff.
    pose proof (ascending_nth _ Hs k i _ _ ltac:(lia) Hc Ha) as H1.
    pose proof (ascending_nth _ Hs (S k) i _ _ ltac:(lia) Hd Ha) as H2.
    unfold raw in *; simpl in *. lra.
Qed.

(** The time-of-flight table turned upside down. *)
Lemma interpolate_table_ascending_inside_witness :
  MathUtils.interpolate_table 100
    [(0.00, 19.8); (0.05, 58.5); (0.10, 111.0); (0.20, 218.9)]
  = Ok (0.05 + (0.10 - 0.05) * (100 - 58.5) / (111.0 - 58.5)).
Proof.
  apply (interpolate_table_ascending_inside _ 1 0.05 58.5 0.10 111.0 100).
  - unfold ascending; repeat constructor; unfold raw; simpl; lra.
  - reflexivity.
  - reflexivity.
  - lra.
Defined.

Lemma loop_no_match (value : R) (table : list row) :
  (forall i c d,
     nth_error table i = Some c -> nth_error table (S i) = Some d ->
     in_bracket value c d = false) ->
  MathUtils.interpolate_table_loop value table (range (len table - 1)%Z) =
  Ok None.
Proof.
  intros H. rewrite range_len_pred.
  rewrite <- (app_nil_r (map _ _)). rewrite loop_skip_seq; [reflexivity|].
  intros i Hi.
  destruct (nth_error_lt table i) as [c Hc]; [lia|].
  destruct (nth_error_lt table (S i)) as [d Hd]; [lia|].
  exists c, d. repeat split; try assumption. apply (H i); assumption.
Qed.

(** X9.  Outside the raw range of an ascending table the lookup extrapolates
    from the far end: a query above the last raw value returns the value of
    the line through the first two rows, and a query at or below the first
    raw value returns the value of the line through the last two rows. *)
Theorem interpolate_table_ascending_outside
  (table : list row) (n : nat) (p0 r0 p1 r1 pa ra pb rb : R) (value : R) :
  ascending table ->
  List.length table = S (S n) ->
  nth_error table 0 = Some (p0, r0) -> nth_error table 1 = Some (p1, r1) ->
  nth_error table n = Some (pa, ra) -> nth_error table (S n) = Some (pb, rb) ->
  (rb < value ->
   MathUtils.interpolate_table value table
   = Ok (p0 + (p1 - p0) * (value - r0) / (r1 - r0))) /\
  (value <= r0 ->
   MathUtils.interpolate_table value table
   = Ok (pa + (pb - pa) * (value - ra) / (rb - ra))).
Proof.
  intros Hs Hlen H0 H1 Ha Hb.
  pose proof (sorted_nth _ table (fun a b c Hab Hbc => Rlt_trans _ _ _ Hab Hbc)
                Hs 0 1 _ _ ltac:(lia) H0 H1) as H01.
  pose proof (sorted_nth _ table (fun a b c Hab Hbc => Rlt_trans _ _ _ Hab Hbc)
                Hs n (S n) _ _ ltac:(lia) Ha Hb) as Hab.
  unfold raw in H01, Hab; simpl in H01, Hab.
  split; intros Hv; unfold MathUtils.interpolate_table.
  - rewrite loop_no_match.
    + cbn [bind]. rewrite (getitem_0 _ _ H0). cbn [bind].
      pose proof (ascending_nth _ Hs 0 (S n) _ _ ltac:(lia) H0 Hb) as H0b.
      unfold raw in H0b; simpl in H0b.
      replace (Rgtb value (raw (p0, r0))) with true
        by (symmetry; apply Rgtb_iff; unfold raw; simpl; lra).
      rewrite (getitem_1 _ _ H1). cbn [bind].
      rewrite interpolate_function_line by (unfold raw; simpl; lra).
      unfold line, physical, raw; simpl. f_equal. field. lra.
    + intros i c d Hc Hd. apply not_true_is_false. rewrite in_bracket_iff.
      assert (S i < List.length table)%nat by (apply nth_error_Some; congruence).
      pose proof (ascending_nth _ Hs i (S n) _ _ ltac:(lia) Hc Hb) as Hcb.
      pose proof (ascending_nth _ Hs (S i) (S n) _ _ ltac:(lia) Hd Hb) as Hdb.
      unfold raw in *; simpl in *. lra.
  - rewrite loop_no_match.
    + cbn [bind]. rewrite (getitem_0 _ _ H0). cbn [bind].
      replace (Rgtb value (raw (p0, r0))) with false
        by (symmetry; apply not_true_is_false; rewrite Rgtb_iff;
            unfold raw; simpl; lra).
      change 2%Z with (Z.of_nat 2).
      rewrite (getitem_len_minus table 2 n (pa, ra)) by (lia || assumption).
      cbn [bind].
      change 1%Z with (Z.of_nat 1).
      rewrite (getitem_len_minus table 1 (S n) (pb, rb)) by (lia || assumption).
      cbn [bind].
      rewrite interpolate_function_line by (unfold raw; simpl; lra).
      unfold line, physical, raw; simpl. f_equal. field. lra.
    + intros i c d Hc Hd. apply not_true_is_false. rewrite in_bracket_iff.
      pose proof (ascending_nth _ Hs 0 i _ _ ltac:(lia) H0 Hc) as H0c.
      pose proof (ascending_nth _ Hs 0 (S i) _ _ ltac:(lia) H0 Hd) as H0d.
      pose proof (sorted_nth _ table
                    (fun a b c Hab Hbc => Rlt_trans _ _ _ Hab Hbc)
                    Hs i (S i) _ _ ltac:(lia) Hc Hd) as Hcd.
      unfold raw in *; simpl in *. lra.
Qed.

(** Above and below the upside-down time-of-flight table. *)
Lemma interpolate_table_ascending_outside_witness :
  MathUtils.interpolate_table 300
    [(0.00, 19.8); (0.05, 58.5); (0.10, 111.0); (0.20, 218.9)]
  = Ok (0.00 + (0.05 - 0.00) * (300 - 19.8) / (58.5 - 19.8)) /\
  MathUtils.interpolate_table 10
    [(0.00, 19.8); (0.05, 58.5); (0.10, 111.0); (0.20, 218.9)]
  = Ok (0.10 + (0.20 - 0.10) * (10 - 111.0) / (218.9 - 111.0)).
Proof.
  assert (Hs : ascending
                 [(0.00, 19.8); (0.05, 58.5); (0.10, 111.0); (0.20, 218.9)])
    by (unfold ascending; repeat constructor; unfold raw; simpl; lra).
  pose proof (interpolate_table_ascending_outside
                [(0.00, 19.8); (0.05, 58.5); (0.10, 111.0); (0.20, 218.9)] 2
                0.00 19.8 0.05 58.5 0.10 111.0 0.20 218.9) as H.
  split.
  - apply (H 300 Hs eq_refl eq_refl eq_refl eq_refl eq_refl). lra.
  - apply (H 10 Hs eq_refl eq_refl eq_refl eq_refl eq_refl). lra.
Defined.

(** ** The orientation *)

Lemma half_plus_PI (yaw : R) : (yaw + 2 * PI) / 2 = yaw / 2 + PI.
Proof. field. Qed.

(** X10.  Adding a full turn to the yaw negates every component of the
    quaternion (the same rotation), and adding two full turns returns the
    same quaternion. *)
Theorem euler_to_quaternion_full_turn (roll pitch yaw : R) :
  MathUtils.euler_to_quaternion roll pitch (yaw + 2 * PI)
  = qopp (MathUtils.euler_to_quaternion roll pitch yaw) /\
  MathUtils.euler_to_quaternion roll pitch (yaw + 2 * PI + 2 * PI)
  = MathUtils.euler_to_quaternion roll pitch yaw.
Proof.
  assert (H1 : forall y,
             MathUtils.euler_to_quaternion roll pitch (y + 2 * PI)
             = qopp (MathUtils.euler_to_quaternion roll pitch y)).
  { intros y. unfold MathUtils.euler_to_quaternion, qopp; simpl.
    rewrite half_plus_PI, neg_sin, neg_cos. f_equal; ring. }
  split; [apply H1|].
  rewrite !H1. unfold qopp, MathUtils.euler_to_quaternion; simpl.
  f_equal; ring.
Qed.

(** ** More on the odometry step *)

(** X11.  [odometry_callback] raises [ZeroDivisionError] when the period
    or the wheel distance is zero, whatever the readings and the rest of the
    driver. *)
Theorem odometry_callback_zero_geometry_raises
  (self : Driver.EPuckDriver) (left right : R) :
  Driver.period self = 0 \/ Driver.wheel_distance self = 0 ->
  Driver.odometry_callback self left right = Raise ZeroDivisionError.
Proof.
  intros H. apply odometry_callback_raises.
  unfold encoder_period_s. destruct H as [H|H]; [left; lra|right; exact H].
Qed.

(** A driver whose wheel distance was set to zero, and one whose period is
    zero. *)
Lemma odometry_callback_zero_geometry_raises_witness :
  Driver.odometry_callback
    (Driver.mkEPuckDriver 64 0.021 0 0 0 (0, 0) 0) 0.5 0.5
  = Raise ZeroDivisionError /\
  Driver.odometry_callback
    (Driver.mkEPuckDriver 0 0.021 0.0552 0 0 (0, 0) 0) 0.5 0.5
  = Raise ZeroDivisionError.
Proof.
  split.
  - apply (odometry_callback_zero_geometry_raises
             (Driver.mkEPuckDriver 64 0.021 0 0 0 (0, 0) 0) 0.5 0.5).
    right. reflexivity.
  - apply (odometry_callback_zero_geometry_raises
             (Driver.mkEPuckDriver 0 0.021 0.0552 0 0 (0, 0) 0) 0.5 0.5).
    left. reflexivity.
Defined.

Lemma euler_to_quaternion_yaw (yaw : R) :
  Driver.euler_to_quaternion 0 0 yaw
  = Quaternion.mk 0 0 (sin (yaw / 2)) (cos (yaw / 2)).
Proof.
  unfold Driver.euler_to_quaternion.
  replace (0 / 2) with 0 by lra. rewrite sin_0, cos_0. f_equal; ring.
Qed.

(** X12.  The orientation that a step publishes is the rotation about the
    vertical axis by the new heading, [(0, 0, sin (theta/2), cos (theta/2))],
    of norm one; the transform carries the same rotation and the same
    position as the odometry message, at height zero. *)
Theorem odometry_publishes_yaw_rotation
  (self : Driver.EPuckDriver) (left right : R)
  (self' : Driver.EPuckDriver) (msg : Driver.Odometry)
  (tf : Driver.TransformStamped) :
  Driver.odometry_callback self left right = Ok (self', msg, tf) ->
  let theta := Driver.prev_angle self' in
  Driver.pose_orientation msg
  = Quaternion.mk 0 0 (sin (theta / 2)) (cos (theta / 2)) /\
  Quaternion.norm2 (Driver.pose_orientation msg) = 1 /\
  Driver.rotation tf = Driver.pose_orientation msg /\
  Driver.translation_x tf = Driver.pose_position_x msg /\
  Driver.translation_y tf = Driver.pose_position_y msg /\
  Driver.translation_z tf = 0.
Proof.
  intros H theta. subst theta. odometry_inv H.
  rewrite euler_to_quaternion_yaw.
  repeat split; try reflexivity.
  - unfold Quaternion.norm2; simpl.
    match goal with
    | |- context [sin ?t] =>
        pose proof (sin2_cos2 t) as E; unfold Rsqr in E; lra
    end.
  - lra.
Qed.

Lemma odometry_publishes_yaw_rotation_witness :
  exists self' msg tf,
    Driver.odometry_callback
      (Driver.mkEPuckDriver 64 0.021 0.0552 1 1 (0, 0) 0) 1.32 1.64
    = Ok (self', msg, tf) /\
    Quaternion.norm2 (Driver.pose_orientation msg) = 1 /\
    Driver.rotation tf = Driver.pose_orientation msg.
Proof.
  destruct (odometry_callback_returns
              (Driver.mkEPuckDriver 64 0.021 0.0552 1 1 (0, 0) 0) 1.32 1.64)
    as (self' & msg & tf & E).
  { unfold encoder_period_s; simpl; lra. }
  { simpl; lra. }
  exists self', msg, tf. split; [exact E|].
  destruct (odometry_publishes_yaw_rotation _ _ _ _ _ _ E)
    as (_ & Hn & Hr & _).
  split; assumption.
Defined.

(** X13.  When the two wheel speeds that a step computes are equal, the
    emitted angular velocity is zero, the heading is unchanged and the
    position advances by [v * dt] along the heading. *)
Theorem odometry_straight_line
  (self : Driver.EPuckDriver) (left right : R)
  (self' : Driver.EPuckDriver) (msg : Driver.Odometry)
  (tf : Driver.TransformStamped) :
  let dt := encoder_period_s self in
  let v_left :=
    (left - Driver.prev_left_wheel_ticks self) / dt * Driver.wheel_radius self in
  let v_right :=
    (right - Driver.prev_right_wheel_ticks self) / dt * Driver.wheel_radius self in
  Driver.odometry_callback self left right = Ok (self', msg, tf) ->
  v_left = v_right ->
  Driver.twist_linear_x msg = v_left /\
  Driver.twist_angular_z msg = 0 /\
  Driver.prev_angle self' = Driver.prev_angle self /\
  Driver.prev_position self' =
    (fst (Driver.prev_position self) + v_left * dt * cos (Driver.prev_angle self),
     snd (Driver.prev_position self) + v_left * dt * sin (Driver.prev_angle self)).
Proof.
  intros dt v_left v_right H Hv.
  destruct (odometry_callback_closed_form _ _ _ _ _ _ H)
    as (Hlin & Hang & Hx & Hy & Hth & Hpos & _).
  fold dt in Hlin, Hang, Hx, Hy, Hth. fold v_left v_right in Hlin, Hang.
  assert (Hlin' : Driver.twist_linear_x msg = v_left) by lra.
  assert (Hang' : Driver.twist_angular_z msg = 0).
  { rewrite Hang. rewrite Hv. unfold Rdiv. ring. }
  rewrite Hang' in Hx, Hy, Hth. rewrite Hlin' in Hx, Hy.
  replace (Driver.prev_angle self + dt * 0 / 2) with (Driver.prev_angle self)
    in Hx, Hy by lra.
  repeat split; try assumption.
  - lra.
  - rewrite Hpos, Hx, Hy. f_equal; field.
Qed.

Lemma odometry_straight_line_witness :
  exists self' msg tf,
    Driver.odometry_callback
      (Driver.mkEPuckDriver 64 0.021 0.0552 1 2 (0.3, -0.1) 0.7) 1.5 2.5
    = Ok (self', msg, tf) /\
    Driver.twist_angular_z msg = 0 /\
    Driver.prev_angle self' = 0.7.
Proof.
  destruct (odometry_callback_returns
              (Driver.mkEPuckDriver 64 0.021 0.0552 1 2 (0.3, -0.1) 0.7) 1.5 2.5)
    as (self' & msg & tf & E).
  { unfold encoder_period_s; simpl; lra. }
  { simpl; lra. }
  exists self', msg, tf. split; [exact E|].
  destruct (odometry_straight_line _ _ _ _ _ _ E) as (_ & Ho & Ha & _).
  { unfold encoder_period_s; simpl; lra. }
  split; assumption.
Defined.

(** X14.  In one step the position moves by at most [|v| * dt]: the square
    of the distance between the old and the new position is at most
    [(v * dt)^2]. *)
Theorem odometry_displacement_bound
  (self : Driver.EPuckDriver) (left right : R)
  (self' : Driver.EPuckDriver) (msg : Driver.Odometry)
  (tf : Driver.TransformStamped) :
  Driver.odometry_callback self left right = Ok (self', msg, tf) ->
  let dx := fst (Driver.prev_position self') - fst (Driver.prev_position self) in
  let dy := snd (Driver.prev_position self') - snd (Driver.prev_position self) in
  let reach := Driver.twist_linear_x msg * encoder_period_s self in
  dx * dx + dy * dy <= reach * reach.
Proof.
  intros H dx dy reach.
  destruct (odometry_callback_closed_form _ _ _ _ _ _ H)
    as (_ & _ & Hx & Hy & _ & Hpos & _).
  subst dx dy reach. rewrite Hpos. simpl. rewrite Hx, Hy.
  set (dt := encoder_period_s self).
  set (v := Driver.twist_linear_x msg).
  set (t0 := Driver.prev_angle self).
  set (t1 := t0 + dt * Driver.twist_angular_z msg / 2).
  pose proof (sin2_cos2 t0) as E0. pose proof (sin2_cos2 t1) as E1.
  unfold Rsqr in E0, E1.
  set (c0 := cos t0) in *. set (s0 := sin t0) in *.
  set (c1 := cos t1) in *. set (s1 := sin t1) in *.
  assert (Hdot : (c0 + 5 * c1) * (c0 + 5 * c1) + (s0 + 5 * s1) * (s0 + 5 * s1)
                 <= 36).
  { pose proof (Rle_0_sqr (c0 - c1)) as A. pose proof (Rle_0_sqr (s0 - s1)) as B.
    unfold Rsqr in A, B. nra. }
  set (k := dt / 6 * v).
  replace (fst (Driver.prev_position self) + k * (c0 + 5 * c1)
           - fst (Driver.prev_position self)) with (k * (c0 + 5 * c1)) by ring.
  replace (snd (Driver.prev_position self) + k * (s0 + 5 * s1)
           - snd (Driver.prev_position self)) with (k * (s0 + 5 * s1)) by ring.
  replace (v * dt) with (6 * k) by (unfold k; field).
  pose proof (Rle_0_sqr k) as Hk. unfold Rsqr in Hk.
  replace (k * (c0 + 5 * c1) * (k * (c0 + 5 * c1))
           + k * (s0 + 5 * s1) * (k * (s0 + 5 * s1)))
    with (k * k * ((c0 + 5 * c1) * (c0 + 5 * c1)
                   + (s0 + 5 * s1) * (s0 + 5 * s1))) by ring.
  replace (6 * k * (6 * k)) with (k * k * 36) by ring.
  apply Rmult_le_compat_l; assumption.
Qed.

Lemma odometry_displacement_bound_witness :
  exists self' msg tf,
    Driver.odometry_callback
      (Driver.mkEPuckDriver 64 0.021 0.0552 1 1 (0, 0) 0) 1.32 1.64
    = Ok (self', msg, tf) /\
    (fst (Driver.prev_position self') - 0) * (fst (Driver.prev_position self') - 0)
    + (snd (Driver.prev_position self') - 0) * (snd (Driver.prev_position self') - 0)
    <= Driver.twist_linear_x msg * (64 / 1000.0)
       * (Driver.twist_linear_x msg * (64 / 1000.0)).
Proof.
  destruct (odometry_callback_returns
              (Driver.mkEPuckDriver 64 0.021 0.0552 1 1 (0, 0) 0) 1.32 1.64)
    as (self' & msg & tf & E).
  { unfold encoder_period_s; simpl; lra. }
  { simpl; lra. }
  exists self', msg, tf. split; [exact E|].
  apply (odometry_displacement_bound _ _ _ _ _ _ E).
Defined.

(** ** Runs of steps *)

(** One odometry step keeps the configuration and the heading offset. *)
Lemma odometry_callback_keeps
  (self : Driver.EPuckDriver) (left right : R)
  (self' : Driver.EPuckDriver) (msg : Driver.Odometry)
  (tf : Driver.TransformStamped) :
  Driver.odometry_callback self left right = Ok (self', msg, tf) ->
  Driver.period self' = Driver.period self /\
  Driver.wheel_radius self' = Driver.wheel_radius self /\
  Driver.wheel_distance self' = Driver.wheel_distance self /\
  Driver.prev_left_wheel_ticks self' = left /\
  Driver.prev_right_wheel_ticks self' = right /\
  heading_offset self' = heading_offset self.
Proof.
  intros H. unfold heading_offset. odometry_inv H.
  repeat split; try reflexivity. field. split; (assumption || lra).
Qed.

Lemma step_callback_inv
  (self : Driver.EPuckDriver) (sample : Driver.Sample)
  (self' : Driver.EPuckDriver)
  (out : Driver.Odometry * Driver.TransformStamped * Driver.LaserScan) :
  Driver.step_callback self sample = Ok (self', out) ->
  exists msg tf scan,
    Driver.odometry_callback self (Driver.left_wheel_sensor sample)
      (Driver.right_wheel_sensor sample) = Ok (self', msg, tf) /\
    Driver.distance_callback (Driver.sensors sample) = Ok scan /\
    out = (msg, tf, scan).
Proof.
  unfold Driver.step_callback. intros H.
  destruct (Driver.odometry_callback _ _ _) as [[[s1 msg] tf]|e];
    [|discriminate H].
  simpl in H.
  destruct (Driver.distance_callback _) as [scan|e]; [|discriminate H].
  simpl in H. injection H as <- <-. exists msg, tf, scan. auto.
Qed.

Lemma distance_callback_returns (sensors : list R) :
  List.length sensors = 8%nat ->
  exists scan, Driver.distance_callback sensors = Ok scan.
Proof.
  intros H.
  destruct (scan_ranges_layout (map (calibrated Driver.DISTANCE_TABLE) sensors)
              (calibrated Driver.TOF_TABLE (nth 7 sensors 0))
              Driver.SENSOR_DIST_FROM_CENTER) as (rs & Hrs & _).
  { rewrite length_map. exact H. }
  rewrite (distance_callback_eight _ H), Hrs. cbn [bind]. eauto.
Qed.

(** A run that returns keeps the configuration and the heading offset. *)
Lemma spin_keeps
  (samples : list Driver.Sample) (self self' : Driver.EPuckDriver) :
  Driver.spin self samples = Ok self' ->
  Driver.period self' = Driver.period self /\
  Driver.wheel_radius self' = Driver.wheel_radius self /\
  Driver.wheel_distance self' = Driver.wheel_distance self /\
  heading_offset self' = heading_offset self.
Proof.
  revert self. induction samples as [|sample rest IH]; intros self H.
  - simpl in H. injection H as <-. auto.
  - simpl in H.
    destruct (Driver.step_callback self sample) as [[s1 out]|e] eqn:E;
      [|discriminate H].
    simpl in H.
    destruct (step_callback_inv _ _ _ _ E) as (msg & tf & scan & Ho & _ & _).
    destruct (odometry_callback_keeps _ _ _ _ _ _ Ho)
      as (Hp & Hr & Hl & _ & _ & Hh).
    destruct (IH s1 H) as (Hp' & Hr' & Hl' & Hh').
    repeat split; congruence.
Qed.

(** A run that returns leaves the wheel readings of its last sample as the
    previous ticks. *)
Lemma spin_last_ticks
  (samples : list Driver.Sample) (last_sample : Driver.Sample)
  (self self' : Driver.EPuckDriver) :
  Driver.spin self (samples ++ [last_sample]) = Ok self' ->
  Driver.prev_left_wheel_ticks self' = Driver.left_wheel_sensor last_sample /\
  Driver.prev_right_wheel_ticks self' = Driver.right_wheel_sensor last_sample.
Proof.
  revert self.
  induction samples as [|sample rest IH]; intros self E; simpl in E.
  - destruct (Driver.step_callback self last_sample) as [[s1 out]|e] eqn:Es;
      [|discriminate E].
    simpl in E. injection E as <-.
    destruct (step_callback_inv _ _ _ _ Es) as (msg & tf & scan & Ho & _ & _).
    destruct (odometry_callback_keeps _ _ _ _ _ _ Ho) as (_ & _ & _ & Hl & Hr & _).
    split; assumption.
  - destruct (Driver.step_callback self sample) as [[s1 out]|e] eqn:Es;
      [|discriminate E].
    simpl in E. apply (IH s1 E).
Qed.

(** X15.  After a run of steps that returns, the configuration is what it
    was, the previous ticks are the wheel readings of the last sample, and
    the heading has changed by [R / L] times the difference between the
    advance of the right wheel and the advance of the left wheel from the
    ticks the run started with to the readings of the last sample: the
    readings in between do not matter. *)
Theorem spin_heading_from_encoders
  (samples : list Driver.Sample) (last_sample : Driver.Sample)
  (self self' : Driver.EPuckDriver) :
  Driver.spin self (samples ++ [last_sample]) = Ok self' ->
  Driver.period self' = Driver.period self /\
  Driver.wheel_radius self' = Driver.wheel_radius self /\
  Driver.wheel_distance self' = Driver.wheel_distance self /\
  Driver.prev_left_wheel_ticks self' = Driver.left_wheel_sensor last_sample /\
  Driver.prev_right_wheel_ticks self' = Driver.right_wheel_sensor last_sample /\
  Driver.prev_angle self' =
    Driver.prev_angle self
    + Driver.wheel_radius self / Driver.wheel_distance self
      * ((Driver.right_wheel_sensor last_sample
          - Driver.prev_right_wheel_ticks self)
         - (Driver.left_wheel_sensor last_sample
            - Driver.prev_left_wheel_ticks self)).
Proof.
  intros H.
  destruct (spin_keeps _ _ _ H) as (Hp & Hr & HL & Hh).
  destruct (spin_last_ticks _ _ _ _ H) as (Hl & Hrt).
  repeat split; try assumption.
  unfold heading_offset in Hh. rewrite Hr, HL, Hl, Hrt in Hh. lra.
Qed.

(** In exact arithmetic a run returns when period and wheel distance are
    not zero and every sample carries eight readings. *)
Lemma spin_returns (samples : list Driver.Sample) (self : Driver.EPuckDriver) :
  Driver.period self <> 0 -> Driver.wheel_distance self <> 0 ->
  eight_sensors samples ->
  exists self', Driver.spin self samples = Ok self'.
Proof.
  revert self. induction samples as [|sample rest IH]; intros self Hp HL H8.
  - simpl. eauto.
  - inversion H8 as [|? ? Hs Hrest]; subst.
    destruct (odometry_callback_returns self
                (Driver.left_wheel_sensor sample)
                (Driver.right_wheel_sensor sample))
      as (s1 & msg & tf & Ho).
    { unfold encoder_period_s. lra. }
    { exact HL. }
    destruct (distance_callback_returns _ Hs) as [scan Hd].
    destruct (odometry_callback_keeps _ _ _ _ _ _ Ho) as (Hp1 & _ & HL1 & _).
    destruct (IH s1) as [self' E]; try congruence; try assumption.
    exists self'. simpl. unfold Driver.step_callback.
    rewrite Ho. cbn [bind]. rewrite Hd. cbn [bind fst]. exact E.
Qed.

(** Two steps of a robot turning left: the heading ends at
    [0.021 / 0.0552 * ((1.7 - 1) - (1.2 - 1))], whatever the first sample
    read. *)
Lemma spin_heading_from_encoders_witness :
  exists self',
    Driver.spin (Driver.mkEPuckDriver 64 0.021 0.0552 1 1 (0, 0) 0)
      ([Driver.mkSample 1.1 1.3 [100; 200; 300; 400; 500; 600; 700; 800]]
       ++ [Driver.mkSample 1.2 1.7 [100; 200; 300; 400; 500; 600; 700; 800]])
    = Ok self' /\
    Driver.prev_left_wheel_ticks self' = 1.2 /\
    Driver.prev_right_wheel_ticks self' = 1.7 /\
    Driver.prev_angle self' = 0.021 / 0.0552 * 0.5.
Proof.
  destruct (spin_returns
              ([Driver.mkSample 1.1 1.3 [100; 200; 300; 400; 500; 600; 700; 800]]
               ++ [Driver.mkSample 1.2 1.7
                     [100; 200; 300; 400; 500; 600; 700; 800]])
              (Driver.mkEPuckDriver 64 0.021 0.0552 1 1 (0, 0) 0))
    as [self' E].
  { simpl; lra. }
  { simpl; lra. }
  { repeat constructor. }
  exists self'. split; [exact E|].
  destruct (spin_heading_from_encoders _ _ _ _ E)
    as (_ & _ & _ & Hl & Hr & Ha).
  simpl in Hl, Hr, Ha.
  split; [exact Hl|]. split; [exact Hr|]. rewrite Ha. lra.
Defined.

(** ** Velocity commands *)

(** X17.  [cmd_vel_callback] inverts the odometry: with a wheel radius, a
    wheel distance and a period that are not zero it returns two wheel
    velocities, and if each wheel then turns at its commanded velocity for
    one period, the twist that the next odometry step emits is the commanded
    twist. *)
Theorem cmd_vel_odometry_round_trip
  (self : Driver.EPuckDriver) (twist : Driver.Twist) :
  Driver.wheel_radius self <> 0 -> Driver.wheel_distance self <> 0 ->
  Driver.period self <> 0 ->
  let dt := encoder_period_s self in
  exists left_velocity right_velocity self' msg tf,
    Driver.cmd_vel_callback self twist = Ok (left_velocity, right_velocity) /\
    Driver.odometry_callback self
      (Driver.prev_left_wheel_ticks self + left_velocity * dt)
      (Driver.prev_right_wheel_ticks self + right_velocity * dt)
    = Ok (self', msg, tf) /\
    Driver.twist_linear_x msg = Driver.linear_x twist /\
    Driver.twist_angular_z msg = Driver.angular_z twist.
Proof.
  intros HR HL Hp dt.
  assert (Hdt : dt <> 0) by (unfold dt, encoder_period_s; lra).
  unfold Driver.cmd_vel_callback.
  rewrite !truediv_ok by lra. cbn [bind].
  match goal with
  | |- exists l r, _ /\ _ /\ _ /\ _ =>
      idtac
  | |- exists l r s m t, Ok (?wl, ?wr) = _ /\ _ =>
      destruct (odometry_callback_returns self
                  (Driver.prev_left_wheel_ticks self + wl * dt)
                  (Driver.prev_right_wheel_ticks self + wr * dt) Hdt HL)
        as (self' & msg & tf & E);
      exists wl, wr, self', msg, tf
  end.
  split; [reflexivity|]. split; [exact E|].
  destruct (odometry_callback_closed_form _ _ _ _ _ _ E) as (Hv & Ho & _).
  fold dt in Hv, Ho. clearbody dt.
  replace 2.0 with 2 in Hv, Ho by lra. split.
  - rewrite Hv. field. repeat split; lra.
  - rewrite Ho. field. repeat split; lra.
Qed.

(** A command of 0.1 m/s forward and 0.5 rad/s to the left. *)
Lemma cmd_vel_odometry_round_trip_witness :
  exists left_velocity right_velocity self' msg tf,
    Driver.cmd_vel_callback
      (Driver.mkEPuckDriver 64 0.021 0.0552 3 4 (0, 0) 0)
      (Driver.mkTwist 0.1 0.5)
    = Ok (left_velocity, right_velocity) /\
    Driver.odometry_callback
      (Driver.mkEPuckDriver 64 0.021 0.0552 3 4 (0, 0) 0)
      (3 + left_velocity * (64 / 1000.0))
      (4 + right_velocity * (64 / 1000.0))
    = Ok (self', msg, tf) /\
    Driver.twist_linear_x msg = 0.1 /\
    Driver.twist_angular_z msg = 0.5.
Proof.
  apply (cmd_vel_odometry_round_trip
           (Driver.mkEPuckDriver 64 0.021 0.0552 3 4 (0, 0) 0)
           (Driver.mkTwist 0.1 0.5)); simpl; lra.
Defined.

(** X18.  [cmd_vel_callback] raises [ZeroDivisionError] when the wheel
    radius is zero, whatever the command; no motor is set then. *)
Theorem cmd_vel_zero_radius_raises
  (self : Driver.EPuckDriver) (twist : Driver.Twist) :
  Driver.wheel_radius self = 0 ->
  Driver.cmd_vel_callback self twist = Raise ZeroDivisionError.
Proof.
  intros H. unfold Driver.cmd_vel_callback, truediv.
  destruct (Req_dec_T (2.0 * Driver.wheel_radius self) 0); [reflexivity|lra].
Qed.

Lemma cmd_vel_zero_radius_raises_witness :
  Driver.cmd_vel_callback (Driver.mkEPuckDriver 64 0 0.0552 0 0 (0, 0) 0)
    (Driver.mkTwist 0.1 0)
  = Raise ZeroDivisionError.
Proof. apply cmd_vel_zero_radius_raises. reflexivity. Defined.

(** ** More on reconfiguration *)

Lemma on_param_changed_body_other
  (self : Driver.EPuckDriver) (param : Driver.Param) :
  Driver.name param <> "wheel_radius"%string ->
  Driver.name param <> "wheel_distance"%string ->
  Driver.on_param_changed_body self param = self.
Proof.
  intros Hr Hd. unfold Driver.on_param_changed_body.
  apply String.eqb_neq in Hr. apply String.eqb_neq in Hd.
  rewrite Hr, Hd. reflexivity.
Qed.

(** X19.  A call of [on_param_changed] that names neither [wheel_radius]
    nor [wheel_distance] leaves the driver as it was, pose and encoder state
    included, and reports success. *)
Theorem on_param_changed_other_params
  (self : Driver.EPuckDriver) (params : list Driver.Param) :
  not_named "wheel_radius" params -> not_named "wheel_distance" params ->
  Driver.on_param_changed self params = (self, Driver.mkResult true).
Proof.
  intros Hr Hd. unfold Driver.on_param_changed. f_equal.
  induction params as [|p rest IH]; [reflexivity|].
  inversion Hr; subst. inversion Hd; subst. simpl.
  rewrite on_param_changed_body_other by assumption. apply IH; assumption.
Qed.

Lemma on_param_changed_other_params_witness :
  Driver.on_param_changed
    (Driver.mkEPuckDriver 64 0.021 0.0552 12.5 11.25 (0.3, -0.1) 1.2)
    [Driver.mkParam "camera_period" 32; Driver.mkParam "period" 64]
  = (Driver.mkEPuckDriver 64 0.021 0.0552 12.5 11.25 (0.3, -0.1) 1.2,
     Driver.mkResult true).
Proof.
  apply on_param_changed_other_params;
    repeat constructor; simpl; discriminate.
Defined.

Lemma fold_keeps_geometry
  (params : list Driver.Param) (self : Driver.EPuckDriver) :
  let self' := fold_left Driver.on_param_changed_body params self in
  Driver.period self' = Driver.period self /\
  (not_named "wheel_radius" params ->
   Driver.wheel_radius self' = Driver.wheel_radius self) /\
  (not_named "wheel_distance" params ->
   Driver.wheel_distance self' = Driver.wheel_distance self).
Proof.
  revert self. induction params as [|p rest IH]; intros self; simpl.
  - auto.
  - destruct (IH (Driver.on_param_changed_body self p)) as (Hp & Hr & Hd).
    unfold Driver.on_param_changed_body in *.
    destruct (String.eqb_spec (Driver.name p) "wheel_radius") as [E1|E1];
      [|destruct (String.eqb_spec (Driver.name p) "wheel_distance")
          as [E2|E2]].
    + repeat split.
      * exact Hp.
      * intros H. inversion H; subst. contradiction.
      * intros H. inversion H; subst. rewrite Hd by assumption. reflexivity.
    + repeat split.
      * exact Hp.
      * intros H. inversion H; subst. rewrite Hr by assumption. reflexivity.
      * intros H. inversion H; subst. contradiction.
    + repeat split.
      * exact Hp.
      * intros H. inversion H; subst. apply Hr. assumption.
      * intros H. inversion H; subst. apply Hd. assumption.
Qed.

Lemma on_param_changed_last_wheel_distance
  (self : Driver.EPuckDriver) (pre post : list Driver.Param)
  (param : Driver.Param) :
  Driver.name param = "wheel_distance"%string ->
  not_named "wheel_distance" post ->
  Driver.wheel_distance
    (fst (Driver.on_param_changed self (pre ++ param :: post)))
  = Driver.value param.
Proof.
  intros Hn Hpost. unfold Driver.on_param_changed; simpl.
  rewrite fold_left_app. simpl.
  destruct (fold_keeps_geometry post
              (Driver.on_param_changed_body
                 (fold_left Driver.on_param_changed_body pre self) param))
    as (_ & _ & Hd).
  rewrite (Hd Hpost). unfold Driver.on_param_changed_body. rewrite Hn.
  reflexivity.
Qed.

Lemma on_param_changed_last_wheel_radius
  (self : Driver.EPuckDriver) (pre post : list Driver.Param)
  (param : Driver.Param) :
  Driver.name param = "wheel_radius"%string ->
  not_named "wheel_radius" post ->
  Driver.wheel_radius
    (fst (Driver.on_param_changed self (pre ++ param :: post)))
  = Driver.value param.
Proof.
  intros Hn Hpost. unfold Driver.on_param_changed; simpl.
  rewrite fold_left_app. simpl.
  destruct (fold_keeps_geometry post
              (Driver.on_param_changed_body
                 (fold_left Driver.on_param_changed_body pre self) param))
    as (_ & Hr & _).
  rewrite (Hr Hpost). unfold Driver.on_param_changed_body. rewrite Hn.
  reflexivity.
Qed.

(** X20.  When a call of [on_param_changed] names a geometry parameter
    several times, the last value wins: afterwards [wheel_radius]
    ([wheel_distance]) is the value of the last parameter of that name, and
    the period is never changed. *)
Theorem on_param_changed_last_value_wins
  (self : Driver.EPuckDriver) (pre post : list Driver.Param)
  (param : Driver.Param) :
  let self' := fst (Driver.on_param_changed self (pre ++ param :: post)) in
  Driver.period self' = Driver.period self /\
  (Driver.name param = "wheel_radius"%string ->
   not_named "wheel_radius" post ->
   Driver.wheel_radius self' = Driver.value param) /\
  (Driver.name param = "wheel_distance"%string ->
   not_named "wheel_distance" post ->
   Driver.wheel_distance self' = Driver.value param).
Proof.
  intros self'. subst self'. repeat split.
  - unfold Driver.on_param_changed; simpl.
    apply (fold_keeps_geometry (pre ++ param :: post) self).
  - apply on_param_changed_last_wheel_radius.
  - apply on_param_changed_last_wheel_distance.
Qed.

Lemma on_param_changed_last_value_wins_witness :
  Driver.wheel_radius
    (fst (Driver.on_param_changed
            (Driver.mkEPuckDriver 64 0.021 0.0552 0 0 (0, 0) 0)
            ([Driver.mkParam "wheel_radius" 0.03]
             ++ Driver.mkParam "wheel_radius" 0.02
             :: [Driver.mkParam "wheel_distance" 0.06])))
  = 0.02.
Proof.
  apply (on_param_changed_last_value_wins
           (Driver.mkEPuckDriver 64 0.021 0.0552 0 0 (0, 0) 0)
           [Driver.mkParam "wheel_radius" 0.03]
           [Driver.mkParam "wheel_distance" 0.06]
           (Driver.mkParam "wheel_radius" 0.02)).
  - reflexivity.
  - repeat constructor; simpl; discriminate.
Defined.

(** X21.  [on_param_changed] does not validate: a wheel distance of zero is
    accepted with [successful = True], and from then on every odometry step
    raises [ZeroDivisionError]. *)
Theorem on_param_changed_accepts_zero_wheel_distance
  (self : Driver.EPuckDriver) (pre post : list Driver.Param)
  (param : Driver.Param) (left right : R) :
  Driver.name param = "wheel_distance"%string ->
  Driver.value param = 0 ->
  not_named "wheel_distance" post ->
  Driver.successful
    (snd (Driver.on_param_changed self (pre ++ param :: post))) = true /\
  Driver.odometry_callback
    (fst (Driver.on_param_changed self (pre ++ param :: post))) left right
  = Raise ZeroDivisionError.
Proof.
  intros Hn Hv Hpost. split; [reflexivity|].
  apply odometry_callback_raises. right.
  rewrite (on_param_changed_last_wheel_distance _ _ _ _ Hn Hpost). exact Hv.
Qed.

Lemma on_param_changed_accepts_zero_wheel_distance_witness :
  Driver.odometry_callback
    (fst (Driver.on_param_changed
            (Driver.mkEPuckDriver 64 0.021 0.0552 0 0 (0, 0) 0)
            ([] ++ Driver.mkParam "wheel_distance" 0 :: [])))
    0.5 0.7
  = Raise ZeroDivisionError.
Proof.
  apply (on_param_changed_accepts_zero_wheel_distance
           (Driver.mkEPuckDriver 64 0.021 0.0552 0 0 (0, 0) 0)
           [] [] (Driver.mkParam "wheel_distance" 0) 0.5 0.7).
  - reflexivity.
  - reflexivity.
  - constructor.
Defined.

Lemma fold_on_param_changed_resets
  (params : list Driver.Param) (self : Driver.EPuckDriver) :
  (exists param, In param params /\ is_geometry_param param) ->
  odometry_is_zero (fold_left Driver.on_param_changed_body params self).
Proof.
  intros (param & Hin & Hg).
  revert self. induction params as [|p rest IH]; intros self; [contradiction|].
  simpl. destruct Hin as [->|Hin].
  - apply fold_on_param_changed_keeps_zero, on_param_changed_body_resets, Hg.
  - apply IH, Hin.
Qed.

(** X22.  The reset forgets the encoder readings but the encoders do not
    restart: in the first step after a change of geometry the velocities
    are computed from the full readings, [v = R * (left + right) / (2 * dt)]
    and [omega = R * (right - left) / (L * dt)], and the heading jumps from
    zero to [R / L * (right - left)]. *)
Theorem first_step_after_reset
  (self : Driver.EPuckDriver) (params : list Driver.Param) (left right : R)
  (self' : Driver.EPuckDriver) (msg : Driver.Odometry)
  (tf : Driver.TransformStamped) :
  (exists param, In param params /\ is_geometry_param param) ->
  let self1 := fst (Driver.on_param_changed self params) in
  let dt := encoder_period_s self1 in
  Driver.odometry_callback self1 left right = Ok (self', msg, tf) ->
  Driver.twist_linear_x msg
  = Driver.wheel_radius self1 * (left + right) / (2 * dt) /\
  Driver.twist_angular_z msg
  = Driver.wheel_radius self1 * (right - left)
    / (Driver.wheel_distance self1 * dt) /\
  Driver.prev_angle self'
  = Driver.wheel_radius self1 / Driver.wheel_distance self1 * (right - left).
Proof.
  intros Hg self1 dt H.
  pose proof (fold_on_param_changed_resets params self Hg) as Hz.
  change (fold_left Driver.on_param_changed_body params self) with self1 in Hz.
  destruct Hz as (Hl & Hr & _ & Ha).
  destruct (odometry_callback_closed_form _ _ _ _ _ _ H)
    as (Hv & Ho & _ & _ & Hth & _).
  fold dt in Hv, Ho, Hth. rewrite Hl, Hr in Hv, Ho. rewrite Ha in Hth.
  assert (Hdt : dt <> 0 /\ Driver.wheel_distance self1 <> 0).
  { split; intros E;
      rewrite (odometry_callback_raises self1 left right) in H;
      try discriminate H; [left|right]; exact E. }
  destruct Hdt as [Hdt HL]. clearbody dt. clearbody self1.
  repeat split.
  - rewrite Hv. field. exact Hdt.
  - rewrite Ho. field. split; assumption.
  - rewrite Hth, Ho. field. split; assumption.
Qed.

(** The wheels have turned by 12.5 and 11.25 radians when the wheel radius
    is changed. *)
Lemma first_step_after_reset_witness :
  exists self' msg tf,
    Driver.odometry_callback
      (fst (Driver.on_param_changed
              (Driver.mkEPuckDriver 64 0.021 0.0552 12.5 11.25 (0.3, -0.1) 1.2)
              [Driver.mkParam "wheel_radius" 0.02]))
      12.5 11.25
    = Ok (self', msg, tf) /\
    Driver.twist_linear_x msg = 0.02 * (12.5 + 11.25) / (2 * (64 / 1000.0)).
Proof.
  destruct (odometry_callback_returns
              (fst (Driver.on_param_changed
                      (Driver.mkEPuckDriver 64 0.021 0.0552 12.5 11.25
                         (0.3, -0.1) 1.2)
                      [Driver.mkParam "wheel_radius" 0.02]))
              12.5 11.25)
    as (self' & msg & tf & E).
  { unfold encoder_period_s; simpl; lra. }
  { simpl; lra. }
  exists self', msg, tf. split; [exact E|].
  refine (proj1 (first_step_after_reset _ _ _ _ _ _ _ _ E)).
  exists (Driver.mkParam "wheel_radius" 0.02). split.
  - left. reflexivity.
  - left. reflexivity.
Defined.

(** ** Distances inside the calibrated envelope *)

Lemma calibrated_distance_in_envelope (value : R) :
  104.09 <= value < 4095 ->
  0 <= calibrated Driver.DISTANCE_TABLE value <= 0.06.
Proof.
  intros Hv.
  destruct (interpolate_table_bounds Driver.DISTANCE_TABLE 8
              (0, 4095) (0.06, 104.09) value
              DISTANCE_TABLE_descending DISTANCE_TABLE_physical_ascending
              eq_refl eq_refl eq_refl) as (y & Hy & Hb).
  { unfold raw; simpl; lra. }
  unfold calibrated. rewrite <- interpolate_table_same, Hy.
  unfold physical in Hb; simpl in Hb. exact Hb.
Qed.

(** X23.  When each of the eight readings lies inside the raw range of
    [DISTANCE_TABLE] (at least 104.09, below 4095), every sensor bin of the
    scan holds a range between 0.035 and 0.095: the offset plus a distance
    between 0 and 0.06. *)
Theorem distance_callback_in_envelope (sensors : list R) :
  List.length sensors = 8%nat ->
  Forall (fun value => 104.09 <= value < 4095) sensors ->
  exists scan,
    Driver.distance_callback sensors = Ok scan /\
    forall i, (i < 8)%nat ->
      0.035 <= nth (nth i sensor_bins 0%nat) (Driver.ranges scan) 0 <= 0.095.
Proof.
  intros H Hall.
  destruct (scan_ranges_layout (map (calibrated Driver.DISTANCE_TABLE) sensors)
              (calibrated Driver.TOF_TABLE (nth 7 sensors 0))
              Driver.SENSOR_DIST_FROM_CENTER) as (rs & Hrs & _ & Hbins & _).
  { rewrite length_map. exact H. }
  rewrite (distance_callback_eight _ H), Hrs. cbn [bind].
  eexists. split; [reflexivity|]. cbn [Driver.ranges].
  intros i Hi. rewrite (Hbins i Hi).
  rewrite (nth_indep _ 0 (calibrated Driver.DISTANCE_TABLE 0))
    by (rewrite length_map; lia).
  rewrite map_nth.
  assert (Hin : In (nth i sensors 0) sensors) by (apply nth_In; lia).
  rewrite Forall_forall in Hall.
  pose proof (calibrated_distance_in_envelope _ (Hall _ Hin)).
  unfold Driver.SENSOR_DIST_FROM_CENTER. lra.
Qed.

Lemma distance_callback_in_envelope_witness :
  exists scan,
    Driver.distance_callback [3000; 2000; 1500; 1000; 500; 300; 200; 110]
    = Ok scan /\
    forall i, (i < 8)%nat ->
      0.035 <= nth (nth i sensor_bins 0%nat) (Driver.ranges scan) 0 <= 0.095.
Proof.
  apply distance_callback_in_envelope.
  - reflexivity.
  - repeat constructor; lra.
Defined.

(** ** The lookup is piecewise linear *)

(** X24.  On a descending table of at least two rows the lookup returns, for
    every query, the value at the query of the line through two consecutive
    rows of the table. *)
Theorem interpolate_table_on_a_segment (value : R) (table : list row) :
  descending table -> (2 <= List.length table)%nat ->
  exists (j : nat) (a b : row),
    nth_error table j = Some a /\ nth_error table (S j) = Some b /\
    MathUtils.interpolate_table value table
    = Ok ((physical b - physical a) / (raw b - raw a) * (value - raw a)
          + physical a).
Proof.
  intros Hd Hlen.
  destruct (List.length table) as [|[|n]] eqn:El; try lia.
  destruct (nth_error_lt table 0) as [t0 H0]; [lia|].
  destruct (nth_error_lt table 1) as [t1 H1]; [lia|].
  destruct (nth_error_lt table n) as [a Ha]; [lia|].
  destruct (nth_error_lt table (S n)) as [b Hb]; [lia|].
  destruct (Rlt_dec (raw t0) value) as [Habove|Hnot].
  { exists 0%nat, t0, t1. repeat split; try assumption.
    apply interpolate_table_above; assumption. }
  destruct (Rlt_dec value (raw b)) as [Hbelow|Hnot'].
  { exists n, a, b. repeat split; try assumption.
    apply (interpolate_table_below _ _ n); assumption. }
  destruct (Req_dec_T value (raw t0)) as [->|Hne].
  { exists n, a, b. repeat split; try assumption.
    apply (interpolate_table_first_knot _ n); assumption. }
  destruct (locate_bracket value table t0 b (S n) H0 El Hb ltac:(lra))
    as (j & c & d & Hc & Hd' & Hcd).
  exists j, c, d. repeat split; try assumption.
  apply (interpolate_table_inside _ _ j); assumption.
Qed.

Lemma interpolate_table_on_a_segment_witness :
  exists (j : nat) (a b : row),
    nth_error Driver.TOF_TABLE j = Some a /\
    nth_error Driver.TOF_TABLE (S j) = Some b /\
    MathUtils.interpolate_table 700 Driver.TOF_TABLE
    = Ok ((physical b - physical a) / (raw b - raw a) * (700 - raw a)
          + physical a).
Proof.
  apply interpolate_table_on_a_segment.
  - exact TOF_TABLE_descending.
  - simpl; lia.
Defined.

(** ** The integrator in a rotated frame *)

(** X25.  The step does not depend on where the odometry frame is: two
    drivers with the same configuration and encoder state whose headings
    differ by [phi] emit the same twist for the same readings, end with
    headings that differ by [phi], and move by displacements that are
    rotations of one another by [phi]. *)
Theorem odometry_rotated_frame
  (period R_w L_w left0 right0 x1 y1 x2 y2 theta phi left right : R) :
  period <> 0 -> L_w <> 0 ->
  exists s1 m1 t1 s2 m2 t2,
    Driver.odometry_callback
      (Driver.mkEPuckDriver period R_w L_w left0 right0 (x1, y1) theta)
      left right = Ok (s1, m1, t1) /\
    Driver.odometry_callback
      (Driver.mkEPuckDriver period R_w L_w left0 right0 (x2, y2) (theta + phi))
      left right = Ok (s2, m2, t2) /\
    Driver.twist_linear_x m2 = Driver.twist_linear_x m1 /\
    Driver.twist_angular_z m2 = Driver.twist_angular_z m1 /\
    Driver.prev_angle s2 = Driver.prev_angle s1 + phi /\
    Driver.pose_position_x m2 - x2
    = cos phi * (Driver.pose_position_x m1 - x1)
      - sin phi * (Driver.pose_position_y m1 - y1) /\
    Driver.pose_position_y m2 - y2
    = sin phi * (Driver.pose_position_x m1 - x1)
      + cos phi * (Driver.pose_position_y m1 - y1).
Proof.
  intros Hp HL.
  destruct (odometry_callback_returns
              (Driver.mkEPuckDriver period R_w L_w left0 right0 (x1, y1) theta)
              left right) as (s1 & m1 & t1 & E1);
    [unfold encoder_period_s; simpl; lra|exact HL|].
  destruct (odometry_callback_returns
              (Driver.mkEPuckDriver period R_w L_w left0 right0 (x2, y2)
                 (theta + phi))
              left right) as (s2 & m2 & t2 & E2);
    [unfold encoder_period_s; simpl; lra|exact HL|].
  exists s1, m1, t1, s2, m2, t2. split; [exact E1|]. split; [exact E2|].
  destruct (odometry_callback_closed_form _ _ _ _ _ _ E1)
    as (Hv1 & Ho1 & Hx1 & Hy1 & Ha1 & _).
  destruct (odometry_callback_closed_form _ _ _ _ _ _ E2)
    as (Hv2 & Ho2 & Hx2 & Hy2 & Ha2 & _).
  unfold encoder_period_s in *. simpl in *.
  assert (Hv : Driver.twist_linear_x m2 = Driver.twist_linear_x m1)
    by congruence.
  assert (Ho : Driver.twist_angular_z m2 = Driver.twist_angular_z m1)
    by congruence.
  rewrite Hv, Ho in Hx2, Hy2. rewrite Ho in Ha2.
  set (dt := period / 1000.0) in *.
  set (v := Driver.twist_linear_x m1) in *.
  set (om := Driver.twist_angular_z m1) in *.
  replace (theta + phi + dt * om / 2) with (theta + dt * om / 2 + phi)
    in Hx2, Hy2 by ring.
  set (half := theta + dt * om / 2) in *.
  rewrite !cos_plus in Hx2. rewrite !sin_plus in Hy2.
  rewrite Hx1, Hy1, Hx2, Hy2, Ha1, Ha2.
  repeat split; try assumption; ring.
Qed.

(** The default geometry, with the frame turned by one radian. *)
Lemma odometry_rotated_frame_witness :
  exists s1 m1 t1 s2 m2 t2,
    Driver.odometry_callback
      (Driver.mkEPuckDriver 64 0.021 0.0552 1 1 (0, 0) 0.2)
      1.32 1.64 = Ok (s1, m1, t1) /\
    Driver.odometry_callback
      (Driver.mkEPuckDriver 64 0.021 0.0552 1 1 (0.5, 0.25) (0.2 + 1))
      1.32 1.64 = Ok (s2, m2, t2) /\
    Driver.twist_linear_x m2 = Driver.twist_linear_x m1 /\
    Driver.twist_angular_z m2 = Driver.twist_angular_z m1 /\
    Driver.prev_angle s2 = Driver.prev_angle s1 + 1 /\
    Driver.pose_position_x m2 - 0.5
    = cos 1 * (Driver.pose_position_x m1 - 0)
      - sin 1 * (Driver.pose_position_y m1 - 0) /\
    Driver.pose_position_y m2 - 0.25
    = sin 1 * (Driver.pose_position_x m1 - 0)
      + cos 1 * (Driver.pose_position_y m1 - 0).
Proof.
  apply (odometry_rotated_frame 64 0.021 0.0552 1 1 0 0 0.5 0.25 0.2 1
           1.32 1.64); lra.
Defined.
